(** * TU-DO Dimmer firmware: a shallow embedding of [src/main.cpp]

    The firmware reads four potentiometers, drives an RGB strip and a main
    light strip, stores ten patches in EEPROM and accepts colours over the
    serial line.  Every function of [main.cpp] is transcribed below as a
    function over an explicit machine state; C integers are [Z] with their
    wrap-around written out for the widths of an AVR target
    ([int] and [size_t] are 16 bits wide). *)

From Stdlib Require Import ZArith Lia Bool Ascii String List.
From stdpp Require Import base option list gmap.
Import ListNotations.

Local Open Scope Z_scope.

(** ** Machine integers *)

Definition u8 (x : Z) : Z := x mod 2 ^ 8.
Definition u16 (x : Z) : Z := x mod 2 ^ 16.
Definition u32 (x : Z) : Z := x mod 2 ^ 32.
Definition u64 (x : Z) : Z := x mod 2 ^ 64.

(** Conversion to the 16-bit signed [int] of the target. *)
Definition i16 (x : Z) : Z := (x + 2 ^ 15) mod 2 ^ 16 - 2 ^ 15.

(** [abs] of Arduino.h: [((x)>0?(x):-(x))], on [int]. *)
Definition c_abs (x : Z) : Z := if 0 <? x then x else i16 (- x).

(** [round(x)] applied to a value that is already an integer: the macro
    ((x)>=0?(long)((x)+0.5):(long)((x)-0.5)) of Arduino.h adds one half and
    cuts the fraction off again, which gives the integer back (the
    quotients the firmware passes are at most 1023 and exact as floats). *)
Definition c_round (x : Z) : Z := x.

Definition ANALOG_READ_MAX : Z := 1023.
Definition RGB_HEX_STR_LEN : Z := 7.
Definition RGBM_HEX_STR_LEN : Z := 9.

(** ** Structs *)

(** NeoPixelBus [RgbColor]: three 8-bit channels. *)
Record RgbColor := { R : Z; G : Z; B : Z }.

Record rgbm := { rgb : RgbColor; M : Z }.

(** NeoPixelBus [RgbColor(HtmlColor(v))]: the three low bytes of [v]. *)
Definition HtmlColor (v : Z) : RgbColor :=
  {| R := Z.land (Z.shiftr v 16) 255;
     G := Z.land (Z.shiftr v 8) 255;
     B := Z.land v 255 |}.

(** ** Build configuration ([config.h]) and the external routine of
    [credits.h], taken as parameters. *)

Record config := {
  NO_MAIN_STRIP : bool;
  POTS_INVERTED : bool;
  R_POT : Z;
  G_POT : Z;
  B_POT : Z;
  M_POT : Z;
  R_POT_LOWER_BOUND : Z;
  G_POT_LOWER_BOUND : Z;
  B_POT_LOWER_BOUND : Z;
  M_POT_LOWER_BOUND : Z;
  POT_MOV_DET_AVG_SAMPLES : Z;
  POT_MOV_DET_MAX_DEV : Z;
  EEPROM_PATCH_ADDR : Z;
  PATCH_DISPLAY_TIME : Z;
  NUM_SAVE_BLINKS : Z;
  BLINK_INTERVAL_ON : Z;
  BLINK_INTERVAL_OFF : Z;
  BOOT_MSG_ASCII_ART : string;
  BOOT_MSG_AUTHORS : string;
  BOOT_MSG_LICENSE : string;
  BOOT_MSG_SRC : string;
  BUILD_DATE : string;
  (* colour left on the strip when the credits animation ends *)
  authors_credit : RgbColor -> RgbColor
}.

(** ** Collaborators *)

(** Modelled from the spec: PatchEncoder.h is missing.  The encoder
    delivers one debounced event per call of [patch_encoder.action()];
    [none] stands for every value the [switch] of [loop] sends to
    [default]. *)
Module PatchEncoder.
Inductive action := none | pressed | left | right.
End PatchEncoder.

(** Modelled from the spec: PatchIndicator.h is missing.  The indicator is
    a notify-only display: its state is the sequence of calls it has
    received, oldest first. *)
Inductive indicator_call :=
| ind_set (digit : Z)
| ind_show (time : Z)
| ind_blink (count on off : Z)
| ind_update.

(** ** Machine state: the collaborators, then the globals of [main.cpp] *)

Record state := {
  (* [adc pin k]: what [analogRead(pin)] returns when it is the [k]-th
     conversion since power-up *)
  adc : Z -> nat -> Z;
  clock : nat;
  (* the colour the RGB strip shows *)
  rgbstrp : RgbColor;
  (* duty last written by [analogWrite(MAIN_STRIP, _)] *)
  main_strip : Z;
  eeprom : gmap Z Z;
  (* lines printed by [Serial.println], oldest first *)
  serial : list string;
  patch_indicator : list indicator_call;
  mainstrp_bright : Z;
  rgbmpots : rgbm;
  avg : rgbm;
  patches : list rgbm;
  current_patch : Z;
  programmed : bool;
  (* the function-static [cmdbuf] of [serialEvent] *)
  cmdbuf : string
}.

Definition set_clock (t : nat) (s : state) : state :=
  {| adc := adc s; clock := t; rgbstrp := rgbstrp s;
     main_strip := main_strip s; eeprom := eeprom s; serial := serial s;
     patch_indicator := patch_indicator s;
     mainstrp_bright := mainstrp_bright s; rgbmpots := rgbmpots s;
     avg := avg s; patches := patches s; current_patch := current_patch s;
     programmed := programmed s; cmdbuf := cmdbuf s |}.

Definition tick (s : state) : state := set_clock (S (clock s)) s.

(** Modelled from the spec: LEDStrip.h with the class [RGBStrip] is
    missing.  The strip is the colour it shows: [rgbstrp.get()] returns what
    the last [rgbstrp.set()] stored (OutputDriver [set]/[get], "the live
    output device state"). *)
Definition rgbstrp_set (c : RgbColor) (s : state) : state :=
  {| adc := adc s; clock := clock s; rgbstrp := c;
     main_strip := main_strip s; eeprom := eeprom s; serial := serial s;
     patch_indicator := patch_indicator s;
     mainstrp_bright := mainstrp_bright s; rgbmpots := rgbmpots s;
     avg := avg s; patches := patches s; current_patch := current_patch s;
     programmed := programmed s; cmdbuf := cmdbuf s |}.

Definition rgbstrp_get (s : state) : RgbColor := rgbstrp s.

Definition analogWrite_MAIN_STRIP (v : Z) (s : state) : state :=
  {| adc := adc s; clock := clock s; rgbstrp := rgbstrp s;
     main_strip := v; eeprom := eeprom s; serial := serial s;
     patch_indicator := patch_indicator s;
     mainstrp_bright := mainstrp_bright s; rgbmpots := rgbmpots s;
     avg := avg s; patches := patches s; current_patch := current_patch s;
     programmed := programmed s; cmdbuf := cmdbuf s |}.

Definition set_eeprom (e : gmap Z Z) (s : state) : state :=
  {| adc := adc s; clock := clock s; rgbstrp := rgbstrp s;
     main_strip := main_strip s; eeprom := e; serial := serial s;
     patch_indicator := patch_indicator s;
     mainstrp_bright := mainstrp_bright s; rgbmpots := rgbmpots s;
     avg := avg s; patches := patches s; current_patch := current_patch s;
     programmed := programmed s; cmdbuf := cmdbuf s |}.

Definition Serial_println (line : string) (s : state) : state :=
  {| adc := adc s; clock := clock s; rgbstrp := rgbstrp s;
     main_strip := main_strip s; eeprom := eeprom s;
     serial := serial s ++ [line];
     patch_indicator := patch_indicator s;
     mainstrp_bright := mainstrp_bright s; rgbmpots := rgbmpots s;
     avg := avg s; patches := patches s; current_patch := current_patch s;
     programmed := programmed s; cmdbuf := cmdbuf s |}.

Definition indicator (c : indicator_call) (s : state) : state :=
  {| adc := adc s; clock := clock s; rgbstrp := rgbstrp s;
     main_strip := main_strip s; eeprom := eeprom s; serial := serial s;
     patch_indicator := patch_indicator s ++ [c];
     mainstrp_bright := mainstrp_bright s; rgbmpots := rgbmpots s;
     avg := avg s; patches := patches s; current_patch := current_patch s;
     programmed := programmed s; cmdbuf := cmdbuf s |}.

Definition set_mainstrp_bright (v : Z) (s : state) : state :=
  {| adc := adc s; clock := clock s; rgbstrp := rgbstrp s;
     main_strip := main_strip s; eeprom := eeprom s; serial := serial s;
     patch_indicator := patch_indicator s;
     mainstrp_bright := v; rgbmpots := rgbmpots s;
     avg := avg s; patches := patches s; current_patch := current_patch s;
     programmed := programmed s; cmdbuf := cmdbuf s |}.

Definition set_rgbmpots (v : rgbm) (s : state) : state :=
  {| adc := adc s; clock := clock s; rgbstrp := rgbstrp s;
     main_strip := main_strip s; eeprom := eeprom s; serial := serial s;
     patch_indicator := patch_indicator s;
     mainstrp_bright := mainstrp_bright s; rgbmpots := v;
     avg := avg s; patches := patches s; current_patch := current_patch s;
     programmed := programmed s; cmdbuf := cmdbuf s |}.

Definition set_avg (v : rgbm) (s : state) : state :=
  {| adc := adc s; clock := clock s; rgbstrp := rgbstrp s;
     main_strip := main_strip s; eeprom := eeprom s; serial := serial s;
     patch_indicator := patch_indicator s;
     mainstrp_bright := mainstrp_bright s; rgbmpots := rgbmpots s;
     avg := v; patches := patches s; current_patch := current_patch s;
     programmed := programmed s; cmdbuf := cmdbuf s |}.

Definition set_patches (v : list rgbm) (s : state) : state :=
  {| adc := adc s; clock := clock s; rgbstrp := rgbstrp s;
     main_strip := main_strip s; eeprom := eeprom s; serial := serial s;
     patch_indicator := patch_indicator s;
     mainstrp_bright := mainstrp_bright s; rgbmpots := rgbmpots s;
     avg := avg s; patches := v; current_patch := current_patch s;
     programmed := programmed s; cmdbuf := cmdbuf s |}.

Definition set_current_patch (v : Z) (s : state) : state :=
  {| adc := adc s; clock := clock s; rgbstrp := rgbstrp s;
     main_strip := main_strip s; eeprom := eeprom s; serial := serial s;
     patch_indicator := patch_indicator s;
     mainstrp_bright := mainstrp_bright s; rgbmpots := rgbmpots s;
     avg := avg s; patches := patches s; current_patch := v;
     programmed := programmed s; cmdbuf := cmdbuf s |}.

Definition set_programmed (v : bool) (s : state) : state :=
  {| adc := adc s; clock := clock s; rgbstrp := rgbstrp s;
     main_strip := main_strip s; eeprom := eeprom s; serial := serial s;
     patch_indicator := patch_indicator s;
     mainstrp_bright := mainstrp_bright s; rgbmpots := rgbmpots s;
     avg := avg s; patches := patches s; current_patch := current_patch s;
     programmed := v; cmdbuf := cmdbuf s |}.

Definition set_cmdbuf (v : string) (s : state) : state :=
  {| adc := adc s; clock := clock s; rgbstrp := rgbstrp s;
     main_strip := main_strip s; eeprom := eeprom s; serial := serial s;
     patch_indicator := patch_indicator s;
     mainstrp_bright := mainstrp_bright s; rgbmpots := rgbmpots s;
     avg := avg s; patches := patches s; current_patch := current_patch s;
     programmed := programmed s; cmdbuf := v |}.

(** [analogRead(pin)]: one conversion; the result is an [int]. *)
Definition analogRead (pin : Z) (s : state) : Z * state :=
  (adc s pin (clock s), tick s).

(** ** Functions of [main.cpp] *)

(** [uint32_pow]: [pow] multiplications in a 32-bit accumulator. *)
Fixpoint uint32_pow_loop (n : nat) (base ret : Z) : Z :=
  match n with
  | O => ret
  | S n' => uint32_pow_loop n' base (u32 (ret * base))
  end.

Definition uint32_pow (base pow : Z) : Z :=
  uint32_pow_loop (Z.to_nat pow) base 1.

(** [adc_to_rgb(uint16_t val)], result converted to [uint8_t]. *)
Definition adc_to_rgb (val : Z) : Z :=
  if val =? 0 then 0
  else if val <? 4 then 1
  else u8 (Z.shiftr val 2).

(** One potentiometer sample as the firmware takes it: the [int] of
    [analogRead], inverted when [POTS_INVERTED] is defined. *)
Definition pot_sample (cfg : config) (pin : Z) (s : state) : Z * state :=
  let '(v, s1) := analogRead pin s in
  (if POTS_INVERTED cfg then i16 (ANALOG_READ_MAX - v) else v, s1).

(** The loop of [avg_pot_read]: [avg += sample] in a [uint64_t]. *)
Fixpoint avg_pot_read_loop (cfg : config) (pin : Z) (n : nat) (acc : Z)
    (s : state) : Z * state :=
  match n with
  | O => (acc, s)
  | S n' =>
      let '(v, s1) := pot_sample cfg pin s in
      avg_pot_read_loop cfg pin n' (u64 (acc + v)) s1
  end.

(** [avg_pot_read(pin, samples)]: [avg/samples] is a division of unsigned
    integers, its quotient is what [round] receives.  ([samples = 0] is a
    division by zero in the source; here the quotient is 0.) *)
Definition avg_pot_read (cfg : config) (pin samples : Z) (s : state)
    : Z * state :=
  let '(sum, s1) := avg_pot_read_loop cfg pin (Z.to_nat samples) 0 s in
  (adc_to_rgb (u16 (c_round (sum / samples))), s1).

(** [#if X_POT_LOWER_BOUND > 0 ... if (ch <= X_POT_LOWER_BOUND) ch = 0;] *)
Definition lower_bound (lb v : Z) : Z :=
  if (0 <? lb) && (v <=? lb) then 0 else v.

(** [rgbm_pots_read]: its four arguments are ignored by the source, which
    reads the pins of the configuration. *)
Definition rgbm_pots_read (cfg : config) (s : state) : rgbm * state :=
  let '(r, s1) := pot_sample cfg (R_POT cfg) s in
  let '(g, s2) := pot_sample cfg (G_POT cfg) s1 in
  let '(b, s3) := pot_sample cfg (B_POT cfg) s2 in
  let '(m, s4) := pot_sample cfg (M_POT cfg) s3 in
  ({| rgb := {| R := lower_bound (R_POT_LOWER_BOUND cfg) (adc_to_rgb (u16 r));
                G := lower_bound (G_POT_LOWER_BOUND cfg) (adc_to_rgb (u16 g));
                B := lower_bound (B_POT_LOWER_BOUND cfg) (adc_to_rgb (u16 b)) |};
      M := lower_bound (M_POT_LOWER_BOUND cfg) (adc_to_rgb (u16 m)) |}, s4).

Definition avg_rgbm_pot_read (cfg : config) (pot_r pot_g pot_b pot_m samples : Z)
    (s : state) : rgbm * state :=
  let '(r, s1) := avg_pot_read cfg pot_r samples s in
  let '(g, s2) := avg_pot_read cfg pot_g samples s1 in
  let '(b, s3) := avg_pot_read cfg pot_b samples s2 in
  let '(m, s4) := avg_pot_read cfg pot_m samples s3 in
  ({| rgb := {| R := r; G := g; B := b |}; M := m |}, s4).

(** [rgbm_pot_mov_det]: the [uint8_t] channels are promoted to [int] before
    the subtraction; the main channel is compared unless [NO_MAIN_STRIP]. *)
Definition rgbm_pot_mov_det (cfg : config) (rgbmpots avg : rgbm) (max_dev : Z)
    : bool :=
  (max_dev <? c_abs (i16 (R (rgb rgbmpots) - R (rgb avg))))
  || (max_dev <? c_abs (i16 (G (rgb rgbmpots) - G (rgb avg))))
  || (max_dev <? c_abs (i16 (B (rgb rgbmpots) - B (rgb avg))))
  || (negb (NO_MAIN_STRIP cfg) && (max_dev <? c_abs (i16 (M rgbmpots - M avg)))).

(** The statement every caller uses to refresh the baseline:
    [avg = avg_rgbm_pot_read(R_POT, G_POT, B_POT, M_POT, POT_MOV_DET_AVG_SAMPLES)]. *)
Definition read_avg (cfg : config) (s : state) : state :=
  let '(a, s1) := avg_rgbm_pot_read cfg (R_POT cfg) (G_POT cfg) (B_POT cfg)
                    (M_POT cfg) (u16 (POT_MOV_DET_AVG_SAMPLES cfg)) s in
  set_avg a s1.

(** [#ifndef NO_MAIN_STRIP  mainstrp_bright = v; analogWrite(MAIN_STRIP, mainstrp_bright);] *)
Definition set_main (cfg : config) (v : Z) (s : state) : state :=
  if NO_MAIN_STRIP cfg then s
  else analogWrite_MAIN_STRIP v (set_mainstrp_bright v s).

(** ** Arduino [String] *)

Definition NUL : ascii := Ascii.zero.

(** [s[i]]: the character, or 0 past the end. *)
Definition String_at (s : string) (i : nat) : ascii :=
  match String.get i s with Some c => c | None => NUL end.

(** [s.substring(left, right)]: characters [left .. right-1], both ends
    clipped to the string. *)
Definition String_substring (left right : nat) (s : string) : string :=
  let lo := Nat.min left right in
  let hi := Nat.max left right in
  if (String.length s <=? lo)%nat then EmptyString
  else String.substring lo (Nat.min hi (String.length s) - lo) s.

(** A [char] as the [int] it is promoted to ([char] is signed on AVR). *)
Definition char_code (c : ascii) : Z :=
  let n := Z.of_N (N_of_ascii c) in
  if n <? 128 then n else n - 256.

Definition digit_char (d : Z) : ascii :=
  ascii_of_N (Z.to_N (if d <? 10 then 48 + d else 87 + d)).

(** [utoa(v, buf, base)]: digits of [v], most significant first, lower case. *)
Fixpoint utoa_loop (fuel : nat) (v base : Z) (acc : string) : string :=
  match fuel with
  | O => acc
  | S fuel' =>
      let acc' := String (digit_char (v mod base)) acc in
      if v / base =? 0 then acc' else utoa_loop fuel' (v / base) base acc'
  end.

(** [String(v, base)] for an [unsigned char]. *)
Definition String_of_uchar (v base : Z) : string :=
  utoa_loop 8 v base EmptyString.

Definition HEX : Z := 16.
Definition DEC : Z := 10.

(** ** Colour over serial *)

Definition pad2 (h : string) : string :=
  if (String.length h =? 1)%nat then ("0" ++ h)%string else h.

Definition print_rgbm (c : rgbm) (s : state) : state :=
  let r := pad2 (String_of_uchar (R (rgb c)) HEX) in
  let g := pad2 (String_of_uchar (G (rgb c)) HEX) in
  let b := pad2 (String_of_uchar (B (rgb c)) HEX) in
  let m := pad2 (String_of_uchar (M c) HEX) in
  let s1 := Serial_println ("Current Color: #" ++ r ++ g ++ b ++ m)%string s in
  let s2 := Serial_println ("R: " ++ String_of_uchar (R (rgb c)) DEC)%string s1 in
  let s3 := Serial_println ("G: " ++ String_of_uchar (G (rgb c)) DEC)%string s2 in
  let s4 := Serial_println ("B: " ++ String_of_uchar (B (rgb c)) DEC)%string s3 in
  Serial_println ("M: " ++ String_of_uchar (M c) DEC)%string s4.

(** The loop of [hexstr_to_uint32] from index [i] on, [rest] being the
    characters not yet visited and [len] the length of the whole string.
    [None] is [return false] (nothing is written through [_hex]),
    [Some v] is [*_hex = v; return true]. *)
Fixpoint hexstr_to_uint32_loop (len i : Z) (rest : string) (hex : Z)
    : option Z :=
  match rest with
  | EmptyString => Some hex
  | String ch rest' =>
      let c := char_code ch in
      let p := uint32_pow 16 (u8 (u16 (len - 1 - i))) in
      if (48 <=? c) && (c <=? 57) then
        hexstr_to_uint32_loop len (i + 1) rest' (u32 (hex + u32 (u32 (c - 48) * p)))
      else if (65 <=? c) && (c <=? 70) then
        hexstr_to_uint32_loop len (i + 1) rest' (u32 (hex + u32 (u32 (c - 55) * p)))
      else if (97 <=? c) && (c <=? 102) then
        hexstr_to_uint32_loop len (i + 1) rest' (u32 (hex + u32 (u32 (c - 87) * p)))
      else None
  end.

Definition hexstr_to_uint32 (hexstr : string) : option Z :=
  hexstr_to_uint32_loop (Z.of_nat (String.length hexstr)) 0 hexstr 0.

Definition is_hash (c : ascii) : bool := char_code c =? 35.

(** [hexstr_to_rgb]: [None] is [return false] ([*rgb] untouched),
    [Some c] is [*rgb = c; return true]. *)
Definition hexstr_to_rgb (hex : string) : option RgbColor :=
  if negb (is_hash (String_at hex 0)) then None
  else
    match hexstr_to_uint32 (String_substring 1 (Z.to_nat RGB_HEX_STR_LEN) hex) with
    | Some rgb_hex => Some (HtmlColor rgb_hex)
    | None => None
    end.

(** [hexstr_to_rgbm(hex, rgbm)]: [out] is what [*rgbm] holds on entry; the
    result is the returned flag and what [*rgbm] holds on return. *)
Definition hexstr_to_rgbm (hex : string) (out : rgbm) : bool * rgbm :=
  if negb (is_hash (String_at hex 0)) then (false, out)
  else
    let rgb_hex := String_substring 0 (Z.to_nat RGB_HEX_STR_LEN) hex in
    match hexstr_to_rgb rgb_hex with
    | None => (false, out)
    | Some c =>
        let out1 := {| rgb := c; M := M out |} in
        let m_hex := String_substring (Z.to_nat RGB_HEX_STR_LEN)
                       (Z.to_nat RGBM_HEX_STR_LEN) hex in
        match hexstr_to_uint32 m_hex with
        | None => (false, out1)
        | Some m => (true, {| rgb := rgb out1; M := u8 m |})
        end
    end.

(** Contents of a local [rgbm] that has not been assigned yet; it is only
    read after [hexstr_to_rgbm] has returned true, which assigns both
    fields. *)
Definition unassigned : rgbm := {| rgb := {| R := 0; G := 0; B := 0 |}; M := 0 |}.

(** One iteration of the [while (Serial.available())] loop of
    [serialEvent], for the character [ch] just read. *)
Definition serialEvent_char (cfg : config) (ch : ascii) (s : state) : state :=
  let c := char_code ch in
  if c =? 103 (* 'g' *) then
    let col := {| rgb := rgbstrp_get s; M := mainstrp_bright s |} in
    set_cmdbuf EmptyString (print_rgbm col s)
  else if c =? 7 (* '\a' *) then
    let prev_color := rgbstrp_get s in
    let s1 := rgbstrp_set (authors_credit cfg (rgbstrp s)) s in
    set_cmdbuf EmptyString (rgbstrp_set prev_color s1)
  else if c =? 10 (* '\n' *) then
    let len := Z.of_nat (String.length (cmdbuf s)) in
    let '(valid, s1) :=
      if len =? RGB_HEX_STR_LEN then
        match hexstr_to_rgb (cmdbuf s) with
        | Some c => (true, rgbstrp_set c s)
        | None => (false, s)
        end
      else if len =? RGBM_HEX_STR_LEN then
        match hexstr_to_rgbm (cmdbuf s) unassigned with
        | (true, v) => (true, set_main cfg (M v) (rgbstrp_set (rgb v) s))
        | (false, _) => (false, s)
        end
      else (false, s) in
    let s2 :=
      if valid then set_programmed true (read_avg cfg s1)
      else Serial_println "Invalid hex value!" s1 in
    set_cmdbuf EmptyString s2
  else
    set_cmdbuf (cmdbuf s ++ String ch EmptyString)%string s.

(** [serialEvent] with [rx] the characters waiting in the receive buffer. *)
Fixpoint serialEvent (cfg : config) (rx : string) (s : state) : state :=
  match rx with
  | EmptyString => s
  | String ch rx' => serialEvent cfg rx' (serialEvent_char cfg ch s)
  end.

(** ** Patches *)

(** [patches[i]]; an index outside the ten slots is outside the model. *)
Definition patches_at (l : list rgbm) (i : Z) : rgbm :=
  default unassigned (l !! Z.to_nat i).

Definition change_patch (cfg : config) (up : bool) (s : state) : state :=
  let '(invalid, s1) :=
    if up && (current_patch s <? 9) then
      (false, set_current_patch (u8 (current_patch s + 1)) s)
    else if negb up && (0 <? current_patch s) then
      (false, set_current_patch (u8 (current_patch s - 1)) s)
    else (true, s) in
  let s2 :=
    if negb invalid then
      let p := patches_at (patches s1) (current_patch s1) in
      let s3 := set_main cfg (M p) (rgbstrp_set (rgb p) s1) in
      let s4 := set_programmed true (read_avg cfg s3) in
      indicator (ind_set (current_patch s4)) s4
    else s1 in
  indicator (ind_show (PATCH_DISPLAY_TIME cfg)) s2.

Definition patch_up (cfg : config) (s : state) : state := change_patch cfg true s.
Definition patch_dwn (cfg : config) (s : state) : state := change_patch cfg false s.

(** [sizeof(rgbm)]: four bytes, R G B M in this order. *)
Definition sizeof_rgbm : Z := 4.

(** [EEPROM.put(addr, v)] for an [rgbm]. *)
Definition EEPROM_put (addr : Z) (v : rgbm) (e : gmap Z Z) : gmap Z Z :=
  <[addr + 3 := M v]> (<[addr + 2 := B (rgb v)]>
    (<[addr + 1 := G (rgb v)]> (<[addr := R (rgb v)]> e))).

(** A cell never written reads as 255. *)
Definition EEPROM_read (addr : Z) (e : gmap Z Z) : Z := default 255 (e !! addr).

(** [EEPROM.get(addr, v)] for an [rgbm]. *)
Definition EEPROM_get (addr : Z) (e : gmap Z Z) : rgbm :=
  {| rgb := {| R := EEPROM_read addr e;
               G := EEPROM_read (addr + 1) e;
               B := EEPROM_read (addr + 2) e |};
     M := EEPROM_read (addr + 3) e |}.

(** [EEPROM.get(EEPROM_PATCH_ADDR, patches)]: the ten slots in a row. *)
Definition EEPROM_get_patches (addr : Z) (e : gmap Z Z) : list rgbm :=
  map (fun k => EEPROM_get (addr + sizeof_rgbm * Z.of_nat k) e) (seq 0 10).

Definition save_patch (cfg : config) (s : state) : state :=
  let i := Z.to_nat (current_patch s) in
  let p := {| rgb := rgbstrp_get s; M := mainstrp_bright s |} in
  let s1 := set_patches (<[i := p]> (patches s)) s in
  let s2 := set_eeprom
              (EEPROM_put (EEPROM_PATCH_ADDR cfg + sizeof_rgbm * current_patch s1)
                 (patches_at (patches s1) (current_patch s1)) (eeprom s1)) s1 in
  indicator (ind_blink (NUM_SAVE_BLINKS cfg) (BLINK_INTERVAL_ON cfg)
               (BLINK_INTERVAL_OFF cfg)) s2.

(** ** Initialization and main loop *)

(** [setup()]; the [pinMode] and [Serial.begin] calls have no counterpart in
    the state. *)
Definition setup (cfg : config) (s : state) : state :=
  let s1 := Serial_println (BOOT_MSG_ASCII_ART cfg ++ String "010" EmptyString)%string s in
  let s2 := Serial_println ("Author(s): " ++ BOOT_MSG_AUTHORS cfg)%string s1 in
  let s3 := Serial_println ("License: " ++ BOOT_MSG_LICENSE cfg)%string s2 in
  let s4 := Serial_println ("Build date: " ++ BUILD_DATE cfg)%string s3 in
  let s5 := Serial_println ("Documentation: " ++ BOOT_MSG_SRC cfg)%string s4 in
  let s6 := set_patches (EEPROM_get_patches (EEPROM_PATCH_ADDR cfg) (eeprom s5)) s5 in
  let s7 := set_current_patch 0 s6 in
  let p := patches_at (patches s7) (current_patch s7) in
  let s8 := set_main cfg (M p) (rgbstrp_set (rgb p) s7) in
  let s9 := indicator (ind_show (PATCH_DISPLAY_TIME cfg)) (indicator (ind_set 0) s8) in
  set_programmed true (read_avg cfg s9).

(** The arbitration at the head of [loop]. *)
Definition loop_pots (cfg : config) (s : state) : state :=
  let '(r, s1) := rgbm_pots_read cfg s in
  let s2 := set_rgbmpots r s1 in
  if negb (programmed s2)
     || rgbm_pot_mov_det cfg (rgbmpots s2) (avg s2) (u8 (POT_MOV_DET_MAX_DEV cfg))
  then set_programmed false (set_main cfg (M (rgbmpots s2))
                               (rgbstrp_set (rgb (rgbmpots s2)) s2))
  else s2.

(** The [switch (patch_encoder.action())] of [loop]. *)
Definition loop_encoder (cfg : config) (a : PatchEncoder.action) (s : state) : state :=
  match a with
  | PatchEncoder.pressed => save_patch cfg s
  | PatchEncoder.left => change_patch cfg false s
  | PatchEncoder.right => change_patch cfg true s
  | PatchEncoder.none => s
  end.

(** [loop()]; [a] is what [patch_encoder.action()] returns in this pass and
    [busy] what [patch_indicator.busy()] returns. *)
Definition loop (cfg : config) (a : PatchEncoder.action) (busy : bool) (s : state)
    : state :=
  let s1 := loop_encoder cfg a (loop_pots cfg s) in
  if busy then indicator ind_update s1 else s1.

(** [n] passes of [loop] with the encoder at rest. *)
Fixpoint idle_loops (cfg : config) (busy : list bool) (s : state) : state :=
  match busy with
  | [] => s
  | b :: busy' => idle_loops cfg busy' (loop cfg PatchEncoder.none b s)
  end.

(** The Arduino core calls [setup] once and then, for ever, [loop] followed
    by [serialEvent] when characters are waiting.  One pass takes the
    encoder event, the indicator's busy flag and the received characters. *)
Record pass_input := {
  encoder : PatchEncoder.action;
  indicator_busy : bool;
  received : string
}.

Definition pass (cfg : config) (i : pass_input) (s : state) : state :=
  serialEvent cfg (received i) (loop cfg (encoder i) (indicator_busy i) s).

Fixpoint passes (cfg : config) (ins : list pass_input) (s : state) : state :=
  match ins with
  | [] => s
  | i :: ins' => passes cfg ins' (pass cfg i s)
  end.

Definition firmware (cfg : config) (ins : list pass_input) (s : state) : state :=
  passes cfg ins (setup cfg s).

(** ** Vocabulary of the specification *)

(** A channel or a whole colour within the 8-bit range. *)
Definition is_u8 (x : Z) : Prop := 0 <= x <= 255.

Definition rgbm_u8 (c : rgbm) : Prop :=
  is_u8 (R (rgb c)) /\ is_u8 (G (rgb c)) /\ is_u8 (B (rgb c)) /\ is_u8 (M c).

(** The current output colour, as the query command reports it. *)
Definition output (s : state) : rgbm :=
  {| rgb := rgbstrp_get s; M := mainstrp_bright s |}.

(** Held is [programmed = true], Live is [programmed = false]. *)
Definition Held (s : state) : Prop := programmed s = true.
Definition Live (s : state) : Prop := programmed s = false.

(** The deviation threshold [loop] passes to [rgbm_pot_mov_det]. *)
Definition threshold (cfg : config) : Z := u8 (POT_MOV_DET_MAX_DEV cfg).

(** Some compared channel of [cur] is further than [d] from [base]. *)
Definition deviates (cfg : config) (cur base : rgbm) (d : Z) : Prop :=
  d < Z.abs (R (rgb cur) - R (rgb base))
  \/ d < Z.abs (G (rgb cur) - G (rgb base))
  \/ d < Z.abs (B (rgb cur) - B (rgb base))
  \/ (NO_MAIN_STRIP cfg = false /\ d < Z.abs (M cur - M base)).

(** What the potentiometers read when the conversion counter is [t]. *)
Definition sample_at (cfg : config) (f : Z -> nat -> Z) (pin : Z) (t : nat) : Z :=
  if POTS_INVERTED cfg then i16 (ANALOG_READ_MAX - f pin t) else f pin t.

Definition pots_at (cfg : config) (f : Z -> nat -> Z) (t : nat) : rgbm :=
  {| rgb := {| R := lower_bound (R_POT_LOWER_BOUND cfg)
                      (adc_to_rgb (u16 (sample_at cfg f (R_POT cfg) t)));
               G := lower_bound (G_POT_LOWER_BOUND cfg)
                      (adc_to_rgb (u16 (sample_at cfg f (G_POT cfg) (t + 1))));
               B := lower_bound (B_POT_LOWER_BOUND cfg)
                      (adc_to_rgb (u16 (sample_at cfg f (B_POT cfg) (t + 2)))) |};
     M := lower_bound (M_POT_LOWER_BOUND cfg)
            (adc_to_rgb (u16 (sample_at cfg f (M_POT cfg) (t + 3)))) |}.

(** The 64-bit accumulator of [avg_pot_read] after [n] samples from
    conversion [t] on, and the exact sum of the same samples. *)
Fixpoint acc_at (cfg : config) (f : Z -> nat -> Z) (pin : Z) (n t : nat) (acc : Z) : Z :=
  match n with
  | O => acc
  | S n' => acc_at cfg f pin n' (S t) (u64 (acc + sample_at cfg f pin t))
  end.

Fixpoint sum_at (cfg : config) (f : Z -> nat -> Z) (pin : Z) (n t : nat) : Z :=
  match n with
  | O => 0
  | S n' => sample_at cfg f pin t + sum_at cfg f pin n' (S t)
  end.

Definition avg_at (cfg : config) (f : Z -> nat -> Z) (pin samples : Z) (t : nat) : Z :=
  adc_to_rgb (u16 (c_round (acc_at cfg f pin (Z.to_nat samples) t 0 / samples))).

(** The baseline taken with [n] samples per channel from conversion [t] on. *)
Definition baseline_at (cfg : config) (f : Z -> nat -> Z) (n : Z) (t : nat) : rgbm :=
  {| rgb := {| R := avg_at cfg f (R_POT cfg) n t;
               G := avg_at cfg f (G_POT cfg) n (t + Z.to_nat n);
               B := avg_at cfg f (B_POT cfg) n (t + Z.to_nat n + Z.to_nat n) |};
     M := avg_at cfg f (M_POT cfg) n (t + Z.to_nat n + Z.to_nat n + Z.to_nat n) |}.

(** Division rounded to the nearest integer, halves upwards. *)
Definition div_nearest (a b : Z) : Z := (2 * a + b) / (2 * b).

(** A hexadecimal digit [0-9A-Fa-f] and its value. *)
Definition hex_digit (ch : ascii) : option Z :=
  let n := Z.of_N (N_of_ascii ch) in
  if (48 <=? n) && (n <=? 57) then Some (n - 48)
  else if (65 <=? n) && (n <=? 70) then Some (n - 55)
  else if (97 <=? n) && (n <=? 102) then Some (n - 87)
  else None.

Fixpoint all_hex (s : string) : bool :=
  match s with
  | EmptyString => true
  | String ch s' => bool_decide (is_Some (hex_digit ch)) && all_hex s'
  end.

(** Positional decoding, most significant digit first. *)
Fixpoint positional_hex (acc : Z) (s : string) : option Z :=
  match s with
  | EmptyString => Some acc
  | String ch s' =>
      match hex_digit ch with
      | Some d => positional_hex (16 * acc + d) s'
      | None => None
      end
  end.

(** Letters A-Z turned into a-z, every other character kept. *)
Definition lower_char (ch : ascii) : ascii :=
  let n := N_of_ascii ch in
  if ((65 <=? n) && (n <=? 90))%N then ascii_of_N (n + 32) else ch.

Fixpoint lowercase (s : string) : string :=
  match s with
  | EmptyString => EmptyString
  | String ch s' => String (lower_char ch) (lowercase s')
  end.

(** A buffered line that [serialEvent] does not accept at the line
    terminator: neither 7 nor 9 characters long, or failing its parse. *)
Definition invalid_line (b : string) : Prop :=
  (String.length b <> 7%nat /\ String.length b <> 9%nat)
  \/ (String.length b = 7%nat /\ hexstr_to_rgb b = None)
  \/ (String.length b = 9%nat /\ fst (hexstr_to_rgbm b unassigned) = false).

Definition newline : ascii := "010"%char.

(** The patch bank is well formed: ten slots, cursor on one of them. *)
Definition bank_ok (s : state) : Prop :=
  length (patches s) = 10%nat /\ 0 <= current_patch s <= 9.

(** ** Sample configurations and states *)

Definition cfg_main : config :=
  {| NO_MAIN_STRIP := false; POTS_INVERTED := false;
     R_POT := 14; G_POT := 15; B_POT := 16; M_POT := 17;
     R_POT_LOWER_BOUND := 0; G_POT_LOWER_BOUND := 0;
     B_POT_LOWER_BOUND := 0; M_POT_LOWER_BOUND := 0;
     POT_MOV_DET_AVG_SAMPLES := 3; POT_MOV_DET_MAX_DEV := 5;
     EEPROM_PATCH_ADDR := 0; PATCH_DISPLAY_TIME := 1000;
     NUM_SAVE_BLINKS := 3; BLINK_INTERVAL_ON := 100; BLINK_INTERVAL_OFF := 100;
     BOOT_MSG_ASCII_ART := "TU-DO"; BOOT_MSG_AUTHORS := "";
     BOOT_MSG_LICENSE := "GPLv3"; BOOT_MSG_SRC := ""; BUILD_DATE := "";
     authors_credit := fun c => c |}.

Definition cfg_no_main : config :=
  {| NO_MAIN_STRIP := true; POTS_INVERTED := false;
     R_POT := 14; G_POT := 15; B_POT := 16; M_POT := 17;
     R_POT_LOWER_BOUND := 0; G_POT_LOWER_BOUND := 0;
     B_POT_LOWER_BOUND := 0; M_POT_LOWER_BOUND := 0;
     POT_MOV_DET_AVG_SAMPLES := 3; POT_MOV_DET_MAX_DEV := 5;
     EEPROM_PATCH_ADDR := 0; PATCH_DISPLAY_TIME := 1000;
     NUM_SAVE_BLINKS := 3; BLINK_INTERVAL_ON := 100; BLINK_INTERVAL_OFF := 100;
     BOOT_MSG_ASCII_ART := "TU-DO"; BOOT_MSG_AUTHORS := "";
     BOOT_MSG_LICENSE := "GPLv3"; BOOT_MSG_SRC := ""; BUILD_DATE := "";
     authors_credit := fun c => c |}.

Definition black : rgbm := {| rgb := {| R := 0; G := 0; B := 0 |}; M := 0 |}.

(** Power-up with every potentiometer resting at the raw value [raw]. *)
Definition power_up (raw : Z) : state :=
  {| adc := fun _ _ => raw; clock := O; rgbstrp := rgb black;
     main_strip := 0; eeprom := ∅; serial := [];
     patch_indicator := [];
     mainstrp_bright := 0; rgbmpots := black; avg := black;
     patches := replicate 10 black; current_patch := 0;
     programmed := false; cmdbuf := EmptyString |}.


(** A state with [line] waiting in the command buffer. *)
Definition with_line (line : string) (s : state) : state := set_cmdbuf line s.

(** Power-up with the converter returning the readings of [l] one after
    the other, whatever the pin. *)
Definition replay (l : list Z) : state :=
  {| adc := fun _ k => nth k l 0; clock := O; rgbstrp := rgb black;
     main_strip := 0; eeprom := ∅; serial := [];
     patch_indicator := [];
     mainstrp_bright := 0; rgbmpots := black; avg := black;
     patches := replicate 10 black; current_patch := 0;
     programmed := false; cmdbuf := EmptyString |}.

(** [b] is a set-colour line, [#RRGGBB] or [#RRGGBBMM]: [c] is the colour
    its six digits spell, [m] the brightness its last two digits spell
    when it has them. *)
Definition set_color_line (b : string) (c : RgbColor) (m : option Z) : Prop :=
  exists digits v,
    String.length digits = 6%nat /\ positional_hex 0 digits = Some v
    /\ c = HtmlColor v
    /\ ((b = String "#" digits /\ m = None)
        \/ exists mm w,
             String.length mm = 2%nat /\ positional_hex 0 mm = Some w
             /\ b = String "#" (digits ++ mm)%string /\ m = Some w).

(** A character that [serialEvent] appends to the buffer: neither the
    query character, nor the credits character, nor the line terminator. *)
Definition buffered_char (ch : ascii) : bool :=
  negb ((char_code ch =? 103) || (char_code ch =? 7) || (char_code ch =? 10)).

Fixpoint buffered (line : string) : bool :=
  match line with
  | EmptyString => true
  | String ch line' => buffered_char ch && buffered line'
  end.

(** What a valid navigation does once the cursor is [k]: the statements of
    [change_patch] from [if (!invalid)] on. *)
Definition select_patch (cfg : config) (k : Z) (s : state) : state :=
  indicator (ind_show (PATCH_DISPLAY_TIME cfg))
    (indicator (ind_set k)
       (set_programmed true
          (read_avg cfg
             (set_main cfg (M (patches_at (patches s) k))
                (rgbstrp_set (rgb (patches_at (patches s) k))
                   (set_current_patch k s)))))).

(** The address of slot [k] in the EEPROM. *)
Definition slot_addr (cfg : config) (k : Z) : Z :=
  EEPROM_PATCH_ADDR cfg + sizeof_rgbm * k.

(** The potentiometers do not move: every conversion of a pin returns the
    same raw value [raw pin]. *)
Definition still (raw : Z -> Z) (s : state) : Prop :=
  forall pin k, adc s pin k = raw pin.

(** The 8-bit value of a still potentiometer, before any lower bound. *)
Definition pot_value (cfg : config) (raw : Z -> Z) (pin : Z) : Z :=
  adc_to_rgb (if POTS_INVERTED cfg then ANALOG_READ_MAX - raw pin else raw pin).

(** A configuration whose red lower bound, 10, is above the deviation
    threshold, 5. *)
Definition cfg_bounded : config :=
  {| NO_MAIN_STRIP := false; POTS_INVERTED := false;
     R_POT := 14; G_POT := 15; B_POT := 16; M_POT := 17;
     R_POT_LOWER_BOUND := 10; G_POT_LOWER_BOUND := 0;
     B_POT_LOWER_BOUND := 0; M_POT_LOWER_BOUND := 0;
     POT_MOV_DET_AVG_SAMPLES := 3; POT_MOV_DET_MAX_DEV := 5;
     EEPROM_PATCH_ADDR := 0; PATCH_DISPLAY_TIME := 1000;
     NUM_SAVE_BLINKS := 3; BLINK_INTERVAL_ON := 100; BLINK_INTERVAL_OFF := 100;
     BOOT_MSG_ASCII_ART := "TU-DO"; BOOT_MSG_AUTHORS := "";
     BOOT_MSG_LICENSE := "GPLv3"; BOOT_MSG_SRC := ""; BUILD_DATE := "";
     authors_credit := fun c => c |}.


(** * Properties *)

(** ** Machine integers *)

Lemma u8_small x : 0 <= x <= 255 -> u8 x = x.
Proof. intros H. unfold u8. apply Z.mod_small. lia. Qed.

Lemma u16_small x : 0 <= x < 65536 -> u16 x = x.
Proof. intros H. unfold u16. apply Z.mod_small. lia. Qed.

Lemma u32_small x : 0 <= x < 2 ^ 32 -> u32 x = x.
Proof. intros H. unfold u32. now apply Z.mod_small. Qed.

Lemma u64_small x : 0 <= x < 2 ^ 64 -> u64 x = x.
Proof. intros H. unfold u64. now apply Z.mod_small. Qed.

Lemma i16_small x : - 32768 <= x <= 32767 -> i16 x = x.
Proof.
  intros H. unfold i16. change (2 ^ 15) with 32768. change (2 ^ 16) with 65536.
  rewrite Z.mod_small; lia.
Qed.

Lemma u8_range x : 0 <= u8 x <= 255.
Proof. unfold u8. pose proof (Z.mod_pos_bound x (2 ^ 8)). lia. Qed.

Lemma c_abs_int x : - 32767 <= x <= 32767 -> c_abs x = Z.abs x.
Proof.
  intros H. unfold c_abs. destruct (0 <? x) eqn:E.
  - apply Z.ltb_lt in E. lia.
  - apply Z.ltb_ge in E. rewrite i16_small; lia.
Qed.

(** The difference of two 8-bit channels, taken and made absolute in
    [int], is the mathematical absolute difference. *)
Lemma channel_distance a b :
  is_u8 a -> is_u8 b -> c_abs (i16 (a - b)) = Z.abs (a - b).
Proof.
  unfold is_u8. intros Ha Hb. rewrite i16_small by lia. apply c_abs_int. lia.
Qed.

(** ** adc_to_rgb *)

Lemma adc_to_rgb_range val : is_u8 (adc_to_rgb val).
Proof.
  unfold adc_to_rgb, is_u8. destruct (val =? 0); [lia|].
  destruct (val <? 4); [lia|]. apply u8_range.
Qed.

(** C9.  For every raw reading in 0..1023, [adc_to_rgb] sends 0 to 0, the
    readings 1, 2 and 3 to 1 and every reading from 4 on to the reading
    divided by 4 (its right shift by 2); the result lies in 0..255. *)
Theorem adc_to_rgb_mapping (val : Z) :
  0 <= val <= 1023 ->
  (val = 0 -> adc_to_rgb val = 0)
  /\ (1 <= val <= 3 -> adc_to_rgb val = 1)
  /\ (4 <= val -> adc_to_rgb val = val / 4 /\ adc_to_rgb val = Z.shiftr val 2)
  /\ 0 <= adc_to_rgb val <= 255.
Proof.
  intros Hval. repeat split.
  - intros ->. reflexivity.
  - intros H. unfold adc_to_rgb.
    destruct (val =? 0) eqn:E0; [apply Z.eqb_eq in E0; lia|].
    destruct (val <? 4) eqn:E4; [reflexivity|apply Z.ltb_ge in E4; lia].
  - unfold adc_to_rgb.
    destruct (val =? 0) eqn:E0; [apply Z.eqb_eq in E0; lia|].
    destruct (val <? 4) eqn:E4; [apply Z.ltb_lt in E4; lia|].
    rewrite Z.shiftr_div_pow2 by lia. change (2 ^ 2) with 4.
    apply u8_small. split; [apply Z.div_pos; lia|].
    apply Z.lt_succ_r. apply Z.div_lt_upper_bound; lia.
  - unfold adc_to_rgb.
    destruct (val =? 0) eqn:E0; [apply Z.eqb_eq in E0; lia|].
    destruct (val <? 4) eqn:E4; [apply Z.ltb_lt in E4; lia|].
    rewrite Z.shiftr_div_pow2 by lia. change (2 ^ 2) with 4.
    rewrite u8_small; [reflexivity|].
    split; [apply Z.div_pos; lia|].
    apply Z.lt_succ_r. apply Z.div_lt_upper_bound; lia.
  - apply adc_to_rgb_range.
  - apply adc_to_rgb_range.
Qed.

Lemma adc_to_rgb_mapping_witness :
  0 <= 1023 <= 1023 /\ adc_to_rgb 1023 = 1023 / 4.
Proof.
  split; [lia|].
  apply (adc_to_rgb_mapping 1023); lia.
Defined.

(** ** rgbm_pot_mov_det *)

Lemma rgbm_pot_mov_det_deviates cfg cur base d :
  rgbm_u8 cur -> rgbm_u8 base ->
  rgbm_pot_mov_det cfg cur base d = true <-> deviates cfg cur base d.
Proof.
  intros (Hr & Hg & Hb & Hm) (Hr' & Hg' & Hb' & Hm').
  unfold rgbm_pot_mov_det, deviates.
  rewrite !channel_distance by assumption.
  rewrite !orb_true_iff, andb_true_iff, negb_true_iff, !Z.ltb_lt.
  tauto.
Qed.

(** C3.  [rgbm_pot_mov_det x x d] is false for every non-negative [d]; it
    is true exactly when some compared channel differs from the baseline by
    strictly more than [d]; a difference equal to [d] on every channel
    gives false. *)
Theorem rgbm_pot_mov_det_strict cfg (cur base : rgbm) (d : Z) :
  rgbm_u8 cur -> rgbm_u8 base -> 0 <= d ->
  rgbm_pot_mov_det cfg cur cur d = false
  /\ (rgbm_pot_mov_det cfg cur base d = true <->
        d < Z.abs (R (rgb cur) - R (rgb base))
        \/ d < Z.abs (G (rgb cur) - G (rgb base))
        \/ d < Z.abs (B (rgb cur) - B (rgb base))
        \/ (NO_MAIN_STRIP cfg = false /\ d < Z.abs (M cur - M base)))
  /\ (Z.abs (R (rgb cur) - R (rgb base)) = d ->
      Z.abs (G (rgb cur) - G (rgb base)) = d ->
      Z.abs (B (rgb cur) - B (rgb base)) = d ->
      Z.abs (M cur - M base) = d ->
      rgbm_pot_mov_det cfg cur base d = false).
Proof.
  intros Hc Hb Hd. split; [|split].
  - apply not_true_is_false. rewrite rgbm_pot_mov_det_deviates by assumption.
    unfold deviates. rewrite !Z.sub_diag. simpl. lia.
  - apply rgbm_pot_mov_det_deviates; assumption.
  - intros E1 E2 E3 E4. apply not_true_is_false.
    rewrite rgbm_pot_mov_det_deviates by assumption.
    unfold deviates. lia.
Qed.

(** ** Reading the potentiometers *)

Lemma set_clock_id s : set_clock (clock s) s = s.
Proof. destruct s. reflexivity. Qed.

Lemma pot_sample_eq cfg pin s :
  pot_sample cfg pin s
  = (sample_at cfg (adc s) pin (clock s), set_clock (S (clock s)) s).
Proof. reflexivity. Qed.

Lemma avg_pot_read_loop_eq cfg pin n : forall acc s,
  avg_pot_read_loop cfg pin n acc s
  = (acc_at cfg (adc s) pin n (clock s) acc, set_clock (clock s + n) s).
Proof.
  induction n as [|n IH]; intros acc s; simpl.
  - rewrite Nat.add_0_r, set_clock_id. reflexivity.
  - rewrite IH. simpl. rewrite Nat.add_succ_r. reflexivity.
Qed.

Lemma avg_pot_read_eq cfg pin samples s :
  avg_pot_read cfg pin samples s
  = (avg_at cfg (adc s) pin samples (clock s),
     set_clock (clock s + Z.to_nat samples) s).
Proof. unfold avg_pot_read. rewrite avg_pot_read_loop_eq. reflexivity. Qed.

Lemma rgbm_pots_read_eq cfg s :
  rgbm_pots_read cfg s = (pots_at cfg (adc s) (clock s), set_clock (clock s + 4) s).
Proof.
  unfold rgbm_pots_read. rewrite !pot_sample_eq. simpl.
  unfold pots_at. rewrite !Nat.add_succ_r, Nat.add_0_r. reflexivity.
Qed.

Lemma read_avg_eq cfg s :
  read_avg cfg s
  = set_avg (baseline_at cfg (adc s) (u16 (POT_MOV_DET_AVG_SAMPLES cfg)) (clock s))
      (set_clock (clock s + Z.to_nat (u16 (POT_MOV_DET_AVG_SAMPLES cfg))
                  + Z.to_nat (u16 (POT_MOV_DET_AVG_SAMPLES cfg))
                  + Z.to_nat (u16 (POT_MOV_DET_AVG_SAMPLES cfg))
                  + Z.to_nat (u16 (POT_MOV_DET_AVG_SAMPLES cfg))) s).
Proof.
  unfold read_avg, avg_rgbm_pot_read. rewrite !avg_pot_read_eq. reflexivity.
Qed.

Lemma lower_bound_range lb v : is_u8 v -> is_u8 (lower_bound lb v).
Proof.
  unfold lower_bound, is_u8. destruct ((0 <? lb) && (v <=? lb)); lia.
Qed.

Lemma pots_at_u8 cfg f t : rgbm_u8 (pots_at cfg f t).
Proof.
  unfold rgbm_u8, pots_at; simpl.
  repeat split; apply lower_bound_range, adc_to_rgb_range.
Qed.

Lemma baseline_at_u8 cfg f n t : rgbm_u8 (baseline_at cfg f n t).
Proof.
  unfold rgbm_u8, baseline_at, avg_at; simpl.
  repeat split; apply adc_to_rgb_range.
Qed.

(** ** avg_pot_read *)

Lemma sample_at_range cfg f pin t :
  0 <= f pin t <= 1023 -> 0 <= sample_at cfg f pin t <= 1023.
Proof.
  intros H. unfold sample_at, ANALOG_READ_MAX.
  destruct (POTS_INVERTED cfg); [rewrite i16_small|]; lia.
Qed.

(** With readings in 0..1023 the 64-bit accumulator holds the exact sum. *)
Lemma acc_at_exact cfg f pin n : forall t acc,
  (forall k, 0 <= f pin k <= 1023) ->
  0 <= acc -> acc + 1023 * Z.of_nat n < 2 ^ 64 ->
  acc_at cfg f pin n t acc = acc + sum_at cfg f pin n t
  /\ 0 <= sum_at cfg f pin n t <= 1023 * Z.of_nat n.
Proof.
  induction n as [|n IH]; intros t acc Hf Hacc Hlim; simpl.
  - lia.
  - pose proof (sample_at_range cfg f pin t (Hf t)) as Hs.
    rewrite u64_small by lia.
    destruct (IH (S t) (acc + sample_at cfg f pin t) Hf) as [E Hsum]; lia.
Qed.

(** For 1..65535 samples in 0..1023 nothing overflows, and what reaches
    [adc_to_rgb] is the quotient of the exact sum, rounded down. *)
Lemma avg_pot_read_floor cfg pin samples s :
  1 <= samples <= 65535 ->
  (forall k, 0 <= adc s pin k <= 1023) ->
  fst (avg_pot_read cfg pin samples s)
  = adc_to_rgb (sum_at cfg (adc s) pin (Z.to_nat samples) (clock s) / samples)
  /\ 0 <= sum_at cfg (adc s) pin (Z.to_nat samples) (clock s) / samples <= 1023.
Proof.
  intros Hn Hf. rewrite avg_pot_read_eq. simpl. unfold avg_at, c_round.
  destruct (acc_at_exact cfg (adc s) pin (Z.to_nat samples) (clock s) 0 Hf)
    as [E Hsum]; [lia| rewrite Z2Nat.id by lia; lia |].
  rewrite Z2Nat.id in Hsum by lia.
  rewrite E, Z.add_0_l.
  assert (Hq : 0 <= sum_at cfg (adc s) pin (Z.to_nat samples) (clock s) / samples <= 1023).
  { split; [apply Z.div_pos; lia|].
    apply Z.lt_succ_r. apply Z.div_lt_upper_bound; lia. }
  rewrite u16_small by lia. split; [reflexivity|exact Hq].
Qed.

(** C7.  Three samples 1, 1, 0 have the average 2/3, whose nearest integer
    is 1, a reading [adc_to_rgb] maps to 1.  [avg_pot_read] returns 0: the
    quotient [avg/samples] is cut down to 0 before [round] sees it. *)
Theorem avg_pot_read_truncates :
  fst (avg_pot_read cfg_main (R_POT cfg_main) 3 (replay [1; 1; 0])) = 0
  /\ sum_at cfg_main (adc (replay [1; 1; 0])) (R_POT cfg_main) 3 0 = 2
  /\ adc_to_rgb (div_nearest 2 3) = 1.
Proof. repeat split. Qed.

(** ** Arduino strings *)

Lemma substring_0_all b : String.substring 0 (String.length b) b = b.
Proof. induction b as [|c b IH]; simpl; [reflexivity|now rewrite IH]. Qed.

Lemma substring_app_l a b :
  String.substring 0 (String.length a) (a ++ b) = a.
Proof.
  induction a as [|c a IH]; simpl.
  - destruct b; reflexivity.
  - now rewrite IH.
Qed.

Lemma substring_app_r a b :
  String.substring (String.length a) (String.length b) (a ++ b) = b.
Proof.
  induction a as [|c a IH]; simpl; [apply substring_0_all|exact IH].
Qed.

Lemma length_app a b :
  String.length (a ++ b) = (String.length a + String.length b)%nat.
Proof. induction a as [|c a IH]; simpl; [reflexivity|now rewrite IH]. Qed.

Lemma length_substring_le n m s :
  (String.length (String.substring n m s) <= m)%nat.
Proof.
  revert n m. induction s as [|c s IH]; intros [|n] [|m]; simpl; try lia.
  - specialize (IH 0%nat m). lia.
  - apply (IH n 0%nat).
  - apply (IH n (S m)).
Qed.

Lemma length_String_substring l r s :
  (String.length (String_substring l r s) <= Nat.max l r - Nat.min l r)%nat.
Proof.
  unfold String_substring.
  destruct (String.length s <=? Nat.min l r)%nat eqn:E; simpl; [lia|].
  apply Nat.leb_gt in E.
  pose proof (length_substring_le (Nat.min l r)
    (Nat.min (Nat.max l r) (String.length s) - Nat.min l r) s). lia.
Qed.

(** The two cuts [hexstr_to_rgbm] makes in a nine-character line, and the
    cut [hexstr_to_rgb] makes in a seven-character one. *)
Lemma cut_digits digits :
  String.length digits = 6%nat ->
  String_substring 1 7 (String "#" digits) = digits.
Proof.
  intros H. unfold String_substring. simpl. rewrite H. simpl.
  rewrite <- H. apply substring_0_all.
Qed.

Lemma cut_rgb digits tail :
  String.length digits = 6%nat -> String.length tail = 2%nat ->
  String_substring 0 7 (String "#" (digits ++ tail)) = String "#" digits.
Proof.
  intros Hd Ht. unfold String_substring. simpl.
  rewrite length_app, Hd, Ht. simpl. f_equal.
  rewrite <- Hd. apply substring_app_l.
Qed.

Lemma cut_main digits tail :
  String.length digits = 6%nat -> String.length tail = 2%nat ->
  String_substring 7 9 (String "#" (digits ++ tail)) = tail.
Proof.
  intros Hd Ht. unfold String_substring. simpl.
  rewrite length_app, Hd, Ht. simpl.
  change 6%nat with (String.length digits) at 1 || rewrite <- Hd.
  rewrite <- Ht. apply substring_app_r.
Qed.

(** ** hexstr_to_uint32 *)

Lemma u32_mod_add a b : u32 (u32 a + b) = u32 (a + b).
Proof. unfold u32. apply Zplus_mod_idemp_l. Qed.

Lemma u32_add_mod a b : u32 (a + u32 b) = u32 (a + b).
Proof. unfold u32. apply Zplus_mod_idemp_r. Qed.

Lemma u32_mul_mod a b : u32 (u32 a * u32 b) = u32 (a * b).
Proof. unfold u32. symmetry. apply Zmult_mod. Qed.

Lemma uint32_pow_loop_eq n base : forall ret,
  u32 (uint32_pow_loop n base ret) = u32 (ret * base ^ Z.of_nat n).
Proof.
  induction n as [|n IH]; intros ret.
  - simpl. now rewrite Z.mul_1_r.
  - cbn [uint32_pow_loop]. rewrite IH.
    rewrite Nat2Z.inj_succ, Z.pow_succ_r by lia.
    unfold u32. rewrite Zmult_mod, Zmod_mod, <- Zmult_mod.
    f_equal. ring.
Qed.

Lemma uint32_pow_wrapped n base ret :
  u32 ret = ret -> u32 (uint32_pow_loop n base ret) = uint32_pow_loop n base ret.
Proof.
  revert ret. induction n as [|n IH]; intros ret H; simpl; [exact H|].
  apply IH. unfold u32. apply Zmod_mod.
Qed.

Lemma uint32_pow_16 k : 0 <= k -> uint32_pow 16 k = u32 (16 ^ k).
Proof.
  intros Hk. unfold uint32_pow.
  rewrite <- uint32_pow_wrapped by reflexivity.
  rewrite uint32_pow_loop_eq, Z2Nat.id, Z.mul_1_l by lia. reflexivity.
Qed.

Lemma ascii_code_range ch : 0 <= Z.of_N (N_of_ascii ch) < 256.
Proof. pose proof (N_ascii_bounded ch). lia. Qed.

Lemma hex_digit_range ch d : hex_digit ch = Some d -> 0 <= d < 16.
Proof.
  unfold hex_digit. cbv zeta.
  repeat match goal with
         | |- context [(?a <=? ?b)] => destruct (Z.leb_spec a b)
         end; simpl; intros E; inversion E; lia.
Qed.

(** One round of the loop: the three tests of the source recognise exactly
    the hexadecimal digits and subtract what gives each digit its value. *)
Lemma hexstr_to_uint32_loop_step len i ch rest hex :
  hexstr_to_uint32_loop len i (String ch rest) hex
  = match hex_digit ch with
    | Some d =>
        hexstr_to_uint32_loop len (i + 1) rest
          (u32 (hex + u32 (u32 d * uint32_pow 16 (u8 (u16 (len - 1 - i))))))
    | None => None
    end.
Proof.
  cbn [hexstr_to_uint32_loop]. unfold char_code, hex_digit. cbv zeta.
  pose proof (ascii_code_range ch) as Hn.
  set (n := Z.of_N (N_of_ascii ch)) in *.
  destruct (Z.ltb_spec n 128) as [Hlo|Hhi].
  { destruct ((48 <=? n) && (n <=? 57)); [reflexivity|].
    destruct ((65 <=? n) && (n <=? 70)); [reflexivity|].
    destruct ((97 <=? n) && (n <=? 102)); reflexivity. }
  assert (E1 : (48 <=? n - 256) = false) by (apply Z.leb_gt; lia).
  assert (E2 : (65 <=? n - 256) = false) by (apply Z.leb_gt; lia).
  assert (E3 : (97 <=? n - 256) = false) by (apply Z.leb_gt; lia).
  assert (E4 : (n <=? 57) = false) by (apply Z.leb_gt; lia).
  assert (E5 : (n <=? 70) = false) by (apply Z.leb_gt; lia).
  assert (E6 : (n <=? 102) = false) by (apply Z.leb_gt; lia).
  rewrite E1, E2, E3, E4, E5, E6, !andb_false_r. reflexivity.
Qed.

Lemma positional_hex_acc s : forall acc,
  positional_hex acc s
  = option_map (fun v => acc * 16 ^ Z.of_nat (String.length s) + v)
      (positional_hex 0 s).
Proof.
  induction s as [|ch s IH]; intros acc.
  - simpl. f_equal. lia.
  - cbn [positional_hex String.length]. destruct (hex_digit ch) as [d|]; [|reflexivity].
    rewrite (IH (16 * acc + d)), (IH (16 * 0 + d)).
    destruct (positional_hex 0 s) as [v|]; [|reflexivity]. simpl. f_equal.
    rewrite Nat2Z.inj_succ, Z.pow_succ_r by lia. ring.
Qed.

Lemma positional_hex_range s : forall v,
  positional_hex 0 s = Some v -> 0 <= v < 16 ^ Z.of_nat (String.length s).
Proof.
  induction s as [|ch s IH]; intros v.
  - simpl. intros H. inversion H. lia.
  - cbn [positional_hex String.length].
    destruct (hex_digit ch) as [d|] eqn:Ed; [|discriminate].
    rewrite positional_hex_acc.
    destruct (positional_hex 0 s) as [w|]; [|discriminate].
    simpl. intros H. inversion H; subst v. clear H.
    specialize (IH w eq_refl). apply hex_digit_range in Ed.
    rewrite Nat2Z.inj_succ, Z.pow_succ_r by lia. nia.
Qed.

Lemma positional_hex_all_hex s : forall acc,
  all_hex s = true <-> is_Some (positional_hex acc s).
Proof.
  induction s as [|ch s IH]; intros acc; cbn [all_hex positional_hex].
  - split; [intros _; eexists; reflexivity|reflexivity].
  - destruct (hex_digit ch) as [d|].
    + rewrite bool_decide_eq_true_2 by (eexists; reflexivity).
      rewrite andb_true_l. apply IH.
    + rewrite bool_decide_eq_false_2 by (intros [? ?]; discriminate).
      rewrite andb_false_l.
      split; [discriminate|intros [? ?]; discriminate].
Qed.

Lemma positional_hex_not_hex s acc :
  all_hex s = false -> positional_hex acc s = None.
Proof.
  intros H. destruct (positional_hex acc s) eqn:E; [|reflexivity].
  assert (all_hex s = true) by (apply (positional_hex_all_hex s acc); eauto).
  congruence.
Qed.

(** The loop adds the positional value of the characters still to come. *)
Lemma hexstr_to_uint32_loop_value rest : forall len i hex,
  0 <= i -> len = i + Z.of_nat (String.length rest) -> len <= 256 ->
  u32 hex = hex ->
  hexstr_to_uint32_loop len i rest hex
  = option_map (fun v => u32 (hex + v)) (positional_hex 0 rest).
Proof.
  induction rest as [|ch rest IH]; intros len i hex Hi Hlen Hmax Hhex.
  - simpl. now rewrite Z.add_0_r, Hhex.
  - rewrite hexstr_to_uint32_loop_step. cbn [positional_hex].
    destruct (hex_digit ch) as [d|] eqn:Ed; [|reflexivity].
    cbn [String.length] in Hlen. rewrite Nat2Z.inj_succ in Hlen.
    rewrite IH; [| lia | lia | lia | unfold u32; apply Zmod_mod].
    rewrite (positional_hex_acc rest (16 * 0 + d)).
    destruct (positional_hex 0 rest) as [v|]; [|reflexivity].
    simpl. f_equal.
    replace (len - 1 - i) with (Z.of_nat (String.length rest)) by lia.
    rewrite u16_small, u8_small, uint32_pow_16 by lia.
    unfold u32. rewrite Zplus_mod_idemp_l, <- Zmult_mod.
    rewrite (Z.add_comm hex), <- Z.add_assoc, Zplus_mod_idemp_l.
    f_equal. ring.
Qed.

Lemma hexstr_to_uint32_wraps s :
  (String.length s <= 256)%nat ->
  hexstr_to_uint32 s = option_map u32 (positional_hex 0 s).
Proof.
  intros H. unfold hexstr_to_uint32.
  rewrite hexstr_to_uint32_loop_value by (reflexivity || lia).
  destruct (positional_hex 0 s); reflexivity.
Qed.

(** Up to eight digits fit the 32 bits: the result is the positional value. *)
Lemma hexstr_to_uint32_positional s :
  (String.length s <= 8)%nat ->
  hexstr_to_uint32 s = positional_hex 0 s.
Proof.
  intros H. rewrite hexstr_to_uint32_wraps by lia.
  destruct (positional_hex 0 s) as [v|] eqn:E; [|reflexivity].
  simpl. f_equal. apply u32_small.
  apply positional_hex_range in E.
  assert (16 ^ Z.of_nat (String.length s) <= 16 ^ 8)
    by (apply Z.pow_le_mono_r; lia).
  change (2 ^ 32) with (16 ^ 8). lia.
Qed.

(** ** hexstr_to_rgb *)

Lemma hexstr_to_rgb_eq hex :
  hexstr_to_rgb hex
  = if is_hash (String_at hex 0)
    then option_map HtmlColor (positional_hex 0 (String_substring 1 7 hex))
    else None.
Proof.
  unfold hexstr_to_rgb. destruct (is_hash (String_at hex 0)); [|reflexivity].
  simpl. change (Z.to_nat RGB_HEX_STR_LEN) with 7%nat.
  rewrite hexstr_to_uint32_positional.
  - destruct (positional_hex 0 (String_substring 1 7 hex)); reflexivity.
  - pose proof (length_String_substring 1 7 hex). simpl in *. lia.
Qed.

Lemma lower_char_hash ch : is_hash (lower_char ch) = is_hash ch.
Proof. destruct ch as [[] [] [] [] [] [] [] []]; reflexivity. Qed.

Lemma lower_char_hex_digit ch : hex_digit (lower_char ch) = hex_digit ch.
Proof. destruct ch as [[] [] [] [] [] [] [] []]; reflexivity. Qed.

Lemma length_lowercase s : String.length (lowercase s) = String.length s.
Proof. induction s as [|c s IH]; simpl; [reflexivity|now rewrite IH]. Qed.

Lemma substring_lowercase s : forall n m,
  String.substring n m (lowercase s) = lowercase (String.substring n m s).
Proof.
  induction s as [|c s IH]; intros [|n] [|m]; simpl; try reflexivity.
  - now rewrite IH.
  - apply IH.
  - apply IH.
Qed.

Lemma String_substring_lowercase l r s :
  String_substring l r (lowercase s) = lowercase (String_substring l r s).
Proof.
  unfold String_substring. rewrite length_lowercase.
  destruct (String.length s <=? Nat.min l r)%nat; [reflexivity|].
  apply substring_lowercase.
Qed.

Lemma String_at_0_lowercase s :
  String_at (lowercase s) 0 = lower_char (String_at s 0).
Proof. destruct s; reflexivity. Qed.

Lemma positional_hex_lowercase s : forall acc,
  positional_hex acc (lowercase s) = positional_hex acc s.
Proof.
  induction s as [|c s IH]; intros acc; simpl; [reflexivity|].
  rewrite lower_char_hex_digit. destruct (hex_digit c); [apply IH|reflexivity].
Qed.

Lemma hexstr_to_rgb_lowercase hex :
  hexstr_to_rgb (lowercase hex) = hexstr_to_rgb hex.
Proof.
  rewrite !hexstr_to_rgb_eq, String_at_0_lowercase, lower_char_hash.
  now rewrite String_substring_lowercase, positional_hex_lowercase.
Qed.

(** C5 (as the code has it).  [hexstr_to_rgb] fails without the leading
    [#] and on a character outside [0-9A-Fa-f] among the (at most six)
    characters that follow it.  It does not look at the length: whatever
    digits stand in positions 1 to 6 are decoded, most significant digit
    first; for [#] and exactly six digits that is the value of the six
    digits.  Upper and lower case decode alike. *)
Theorem hexstr_to_rgb_decodes (hex : string) :
  (is_hash (String_at hex 0) = false -> hexstr_to_rgb hex = None)
  /\ (all_hex (String_substring 1 7 hex) = false -> hexstr_to_rgb hex = None)
  /\ (is_hash (String_at hex 0) = true ->
      hexstr_to_rgb hex
      = option_map HtmlColor (positional_hex 0 (String_substring 1 7 hex)))
  /\ (forall digits,
        hex = String "#" digits -> String.length digits = 6%nat ->
        all_hex digits = true ->
        exists v, positional_hex 0 digits = Some v /\ 0 <= v < 16 ^ 6
                  /\ hexstr_to_uint32 digits = Some v
                  /\ hexstr_to_rgb hex = Some (HtmlColor v))
  /\ hexstr_to_rgb (lowercase hex) = hexstr_to_rgb hex.
Proof.
  repeat split.
  - intros H. rewrite hexstr_to_rgb_eq, H. reflexivity.
  - intros H. rewrite hexstr_to_rgb_eq.
    rewrite (positional_hex_not_hex _ 0 H). now destruct (is_hash _).
  - intros H. rewrite hexstr_to_rgb_eq, H. reflexivity.
  - intros digits -> Hlen Hall.
    destruct (proj1 (positional_hex_all_hex digits 0) Hall) as [v Hv].
    exists v. pose proof (positional_hex_range digits v Hv) as Hr.
    rewrite Hlen in Hr. repeat split; try assumption; try lia.
    + rewrite hexstr_to_uint32_positional by lia. exact Hv.
    + rewrite hexstr_to_rgb_eq. change (is_hash (String_at _ 0)) with true.
      cbv iota. rewrite cut_digits by assumption. rewrite Hv. reflexivity.
  - apply hexstr_to_rgb_lowercase.
Qed.

Lemma hexstr_to_rgb_decodes_witness :
  all_hex "c0FFee" = true
  /\ exists v, positional_hex 0 "c0FFee" = Some v /\ 0 <= v < 16 ^ 6
               /\ hexstr_to_uint32 "c0FFee" = Some v
               /\ hexstr_to_rgb "#c0FFee" = Some (HtmlColor v).
Proof.
  split; [reflexivity|].
  apply (proj1 (proj2 (proj2 (proj2 (hexstr_to_rgb_decodes "#c0FFee"%string)))) "c0FFee"%string);
    reflexivity.
Defined.

(** A digit run of three characters is accepted as it stands. *)
Lemma hexstr_to_rgb_short_accepted :
  String.length "FFF" <> 6%nat
  /\ hexstr_to_uint32 "FFF" = Some 4095
  /\ hexstr_to_rgb "#FFF" = Some {| R := 0; G := 15; B := 255 |}.
Proof. repeat split. discriminate. Qed.

(** ** hexstr_to_rgbm *)

Lemma hexstr_to_rgb_six digits v :
  String.length digits = 6%nat -> positional_hex 0 digits = Some v ->
  hexstr_to_rgb (String "#" digits) = Some (HtmlColor v).
Proof.
  intros Hlen Hv. rewrite hexstr_to_rgb_eq.
  change (is_hash (String_at _ 0)) with true. cbv iota.
  rewrite cut_digits by assumption. now rewrite Hv.
Qed.

Lemma hexstr_to_rgbm_cuts digits tail out v :
  String.length digits = 6%nat -> String.length tail = 2%nat ->
  positional_hex 0 digits = Some v ->
  hexstr_to_rgbm (String "#" (digits ++ tail)) out
  = match positional_hex 0 tail with
    | Some m => (true, {| rgb := HtmlColor v; M := u8 m |})
    | None => (false, {| rgb := HtmlColor v; M := M out |})
    end.
Proof.
  intros Hd Ht Hv. unfold hexstr_to_rgbm.
  change (is_hash (String_at _ 0)) with true. cbv iota. simpl negb. cbv iota.
  change (Z.to_nat RGB_HEX_STR_LEN) with 7%nat.
  change (Z.to_nat RGBM_HEX_STR_LEN) with 9%nat.
  rewrite cut_rgb, cut_main by assumption.
  rewrite (hexstr_to_rgb_six digits v Hd Hv).
  rewrite hexstr_to_uint32_positional by lia.
  destruct (positional_hex 0 tail); reflexivity.
Qed.

(** C10.  On [#], six hexadecimal digits and two more characters of which
    one is no hexadecimal digit, [hexstr_to_rgbm] returns false and has
    already stored the colour of the six digits in the [rgb] field of the
    caller's struct; the [M] field keeps what it held. *)
Theorem hexstr_to_rgbm_writes_rgb_before_failing (digits tail : string) (out : rgbm) (v : Z) :
  String.length digits = 6%nat ->
  positional_hex 0 digits = Some v ->
  String.length tail = 2%nat ->
  all_hex tail = false ->
  hexstr_to_rgb (String "#" digits) = Some (HtmlColor v)
  /\ hexstr_to_rgbm (String "#" (digits ++ tail)) out
     = (false, {| rgb := HtmlColor v; M := M out |}).
Proof.
  intros Hd Hv Ht Hbad. split; [now apply hexstr_to_rgb_six|].
  rewrite (hexstr_to_rgbm_cuts digits tail out v) by assumption.
  now rewrite (positional_hex_not_hex tail 0 Hbad).
Qed.

Lemma hexstr_to_rgbm_writes_rgb_before_failing_witness :
  hexstr_to_rgbm "#AABBCCZZ" black
  = (false, {| rgb := {| R := 170; G := 187; B := 204 |}; M := 0 |}).
Proof.
  apply (hexstr_to_rgbm_writes_rgb_before_failing "AABBCC"%string "ZZ"%string black 11189196);
    reflexivity.
Defined.

(** ** serialEvent at the line terminator *)

Lemma serialEvent_char_set_rgb cfg s digits v :
  cmdbuf s = String "#" digits -> String.length digits = 6%nat ->
  positional_hex 0 digits = Some v ->
  serialEvent_char cfg newline s
  = set_cmdbuf EmptyString
      (set_programmed true (read_avg cfg (rgbstrp_set (HtmlColor v) s))).
Proof.
  intros Hb Hlen Hv. unfold serialEvent_char.
  change (char_code newline) with 10. cbv beta iota zeta. simpl (10 =? _).
  cbv iota. rewrite Hb. cbn [String.length]. rewrite Hlen.
  change (Z.of_nat 7 =? RGB_HEX_STR_LEN) with true. cbv iota.
  rewrite (hexstr_to_rgb_six digits v Hlen Hv). reflexivity.
Qed.

Lemma serialEvent_char_set_rgbm cfg s digits mm v m :
  cmdbuf s = String "#" (digits ++ mm) ->
  String.length digits = 6%nat -> String.length mm = 2%nat ->
  positional_hex 0 digits = Some v -> positional_hex 0 mm = Some m ->
  serialEvent_char cfg newline s
  = set_cmdbuf EmptyString
      (set_programmed true
         (read_avg cfg (set_main cfg m (rgbstrp_set (HtmlColor v) s)))).
Proof.
  intros Hb Hd Hm Hv Hw. unfold serialEvent_char.
  change (char_code newline) with 10. cbv beta iota zeta. simpl (10 =? _).
  cbv iota. rewrite Hb. cbn [String.length]. rewrite length_app, Hd, Hm.
  change (Z.of_nat 9 =? RGB_HEX_STR_LEN) with false.
  change (Z.of_nat 9 =? RGBM_HEX_STR_LEN) with true. cbv iota.
  rewrite (hexstr_to_rgbm_cuts digits mm unassigned v Hd Hm Hv), Hw.
  cbn [rgb M]. rewrite u8_small; [reflexivity|].
  pose proof (positional_hex_range mm m Hw) as Hr. rewrite Hm in Hr.
  change (16 ^ Z.of_nat 2) with 256 in Hr. lia.
Qed.

Lemma serialEvent_char_invalid cfg s :
  invalid_line (cmdbuf s) ->
  serialEvent_char cfg newline s
  = set_cmdbuf EmptyString (Serial_println "Invalid hex value!" s).
Proof.
  intros H. unfold serialEvent_char.
  change (char_code newline) with 10. cbv beta iota zeta. simpl (10 =? _).
  cbv iota. unfold RGB_HEX_STR_LEN, RGBM_HEX_STR_LEN.
  destruct H as [[H7 H9]|[[H7 Hp]|[H9 Hp]]].
  - destruct (Z.eqb_spec (Z.of_nat (String.length (cmdbuf s))) 7); [lia|].
    destruct (Z.eqb_spec (Z.of_nat (String.length (cmdbuf s))) 9); [lia|].
    reflexivity.
  - rewrite H7, Hp. reflexivity.
  - rewrite H9. simpl (_ =? _). cbv iota.
    destruct (hexstr_to_rgbm (cmdbuf s) unassigned) as [b w].
    simpl in Hp. subst b. reflexivity.
Qed.

Lemma set_main_mainstrp_bright cfg v s :
  mainstrp_bright (set_main cfg v s)
  = if NO_MAIN_STRIP cfg then mainstrp_bright s else v.
Proof. unfold set_main. destruct (NO_MAIN_STRIP cfg); reflexivity. Qed.

Lemma set_main_main_strip cfg v s :
  main_strip (set_main cfg v s)
  = if NO_MAIN_STRIP cfg then main_strip s else v.
Proof. unfold set_main. destruct (NO_MAIN_STRIP cfg); reflexivity. Qed.

Lemma set_main_rgbstrp cfg v s : rgbstrp (set_main cfg v s) = rgbstrp s.
Proof. unfold set_main. destruct (NO_MAIN_STRIP cfg); reflexivity. Qed.

Lemma set_main_adc cfg v s : adc (set_main cfg v s) = adc s.
Proof. unfold set_main. destruct (NO_MAIN_STRIP cfg); reflexivity. Qed.

Lemma set_main_clock cfg v s : clock (set_main cfg v s) = clock s.
Proof. unfold set_main. destruct (NO_MAIN_STRIP cfg); reflexivity. Qed.

(** C4 (as the code has it).  At the line terminator a buffered [#RRGGBB]
    sets the strip colour and leaves the main brightness alone; a buffered
    [#RRGGBBMM] sets the strip colour and, unless the firmware is built
    with [NO_MAIN_STRIP], the main brightness, which [NO_MAIN_STRIP]
    leaves alone; any other line changes nothing but the serial output,
    which receives the invalid-value message, and the emptied buffer. *)
Theorem serialEvent_line_terminator cfg (s : state) :
  (forall digits v,
     cmdbuf s = String "#" digits -> String.length digits = 6%nat ->
     positional_hex 0 digits = Some v ->
     rgbstrp (serialEvent_char cfg newline s) = HtmlColor v
     /\ mainstrp_bright (serialEvent_char cfg newline s) = mainstrp_bright s
     /\ main_strip (serialEvent_char cfg newline s) = main_strip s)
  /\ (forall digits mm v m,
     cmdbuf s = String "#" (digits ++ mm) ->
     String.length digits = 6%nat -> String.length mm = 2%nat ->
     positional_hex 0 digits = Some v -> positional_hex 0 mm = Some m ->
     rgbstrp (serialEvent_char cfg newline s) = HtmlColor v
     /\ mainstrp_bright (serialEvent_char cfg newline s)
        = (if NO_MAIN_STRIP cfg then mainstrp_bright s else m)
     /\ main_strip (serialEvent_char cfg newline s)
        = (if NO_MAIN_STRIP cfg then main_strip s else m))
  /\ (invalid_line (cmdbuf s) ->
     serialEvent_char cfg newline s
     = set_cmdbuf EmptyString (Serial_println "Invalid hex value!" s)
     /\ output (serialEvent_char cfg newline s) = output s
     /\ main_strip (serialEvent_char cfg newline s) = main_strip s
     /\ programmed (serialEvent_char cfg newline s) = programmed s
     /\ avg (serialEvent_char cfg newline s) = avg s
     /\ patches (serialEvent_char cfg newline s) = patches s
     /\ current_patch (serialEvent_char cfg newline s) = current_patch s
     /\ serial (serialEvent_char cfg newline s)
        = serial s ++ ["Invalid hex value!"%string]).
Proof.
  split; [|split].
  - intros digits v Hb Hlen Hv.
    rewrite (serialEvent_char_set_rgb cfg s digits v Hb Hlen Hv), read_avg_eq.
    repeat split.
  - intros digits mm v m Hb Hd Hm Hv Hw.
    rewrite (serialEvent_char_set_rgbm cfg s digits mm v m Hb Hd Hm Hv Hw).
    rewrite read_avg_eq. cbn [rgbstrp mainstrp_bright main_strip set_cmdbuf
      set_programmed set_avg set_clock].
    rewrite set_main_rgbstrp, set_main_mainstrp_bright, set_main_main_strip.
    repeat split.
  - intros H. rewrite (serialEvent_char_invalid cfg s H). repeat split.
Qed.

Lemma serialEvent_line_terminator_witness :
  invalid_line (cmdbuf (with_line "#ZZZZZZ" (power_up 512)))
  /\ output (serialEvent_char cfg_main newline (with_line "#ZZZZZZ" (power_up 512)))
     = output (with_line "#ZZZZZZ" (power_up 512))
  /\ serial (serialEvent_char cfg_main newline (with_line "#ZZZZZZ" (power_up 512)))
     = ["Invalid hex value!"%string].
Proof.
  assert (H : invalid_line (cmdbuf (with_line "#ZZZZZZ" (power_up 512)))).
  { right. left. split; reflexivity. }
  split; [exact H|].
  pose proof (proj2 (proj2 (serialEvent_line_terminator cfg_main
                              (with_line "#ZZZZZZ" (power_up 512)))) H) as P.
  split; [apply P|]. apply P.
Defined.

(** With [NO_MAIN_STRIP] a nine-character line is accepted and parsed, its
    brightness DD is not applied. *)
Lemma serialEvent_rgbm_line_no_main_strip :
  hexstr_to_rgbm "#AABBCCDD" unassigned
  = (true, {| rgb := {| R := 170; G := 187; B := 204 |}; M := 221 |})
  /\ rgbstrp (serialEvent_char cfg_no_main newline (with_line "#AABBCCDD" (power_up 512)))
     = {| R := 170; G := 187; B := 204 |}
  /\ mainstrp_bright (serialEvent_char cfg_no_main newline (with_line "#AABBCCDD" (power_up 512)))
     = 0
  /\ mainstrp_bright (serialEvent_char cfg_no_main newline (with_line "#AABBCCDD" (power_up 512)))
     <> 221.
Proof. repeat split. discriminate. Qed.

Lemma avg_rgbm_pot_read_eq cfg n s :
  fst (avg_rgbm_pot_read cfg (R_POT cfg) (G_POT cfg) (B_POT cfg) (M_POT cfg) n s)
  = baseline_at cfg (adc s) n (clock s).
Proof. unfold avg_rgbm_pot_read. rewrite !avg_pot_read_eq. reflexivity. Qed.

(** C2 (as the code has it).  When the line terminator finds a set-colour
    line in the buffer, whatever the state was, the controller is Held,
    the strip shows the parsed colour, the main brightness is the parsed
    one if the line has it and the firmware is not built with
    [NO_MAIN_STRIP] (otherwise it is left as it was), and the baseline is
    the average [avg_rgbm_pot_read] takes of the potentiometers at that
    moment: it depends on the converter alone, not on the colour. *)
Theorem serialEvent_set_color cfg (s : state) (c : RgbColor) (m : option Z) :
  set_color_line (cmdbuf s) c m ->
  Held (serialEvent_char cfg newline s)
  /\ rgbstrp_get (serialEvent_char cfg newline s) = c
  /\ mainstrp_bright (serialEvent_char cfg newline s)
     = match m with
       | Some w => if NO_MAIN_STRIP cfg then mainstrp_bright s else w
       | None => mainstrp_bright s
       end
  /\ avg (serialEvent_char cfg newline s)
     = fst (avg_rgbm_pot_read cfg (R_POT cfg) (G_POT cfg) (B_POT cfg) (M_POT cfg)
              (u16 (POT_MOV_DET_AVG_SAMPLES cfg)) s)
  /\ avg (serialEvent_char cfg newline s)
     = baseline_at cfg (adc s) (u16 (POT_MOV_DET_AVG_SAMPLES cfg)) (clock s).
Proof.
  intros (digits & v & Hd & Hv & -> & [[Hb ->]|(mm & w & Hm & Hw & Hb & ->)]).
  - rewrite (serialEvent_char_set_rgb cfg s digits v Hb Hd Hv), read_avg_eq.
    rewrite avg_rgbm_pot_read_eq. repeat split.
  - rewrite (serialEvent_char_set_rgbm cfg s digits mm v w Hb Hd Hm Hv Hw).
    rewrite read_avg_eq, avg_rgbm_pot_read_eq.
    unfold Held, rgbstrp_get.
    cbn [programmed rgbstrp mainstrp_bright avg set_cmdbuf set_programmed
         set_avg set_clock].
    rewrite set_main_rgbstrp, set_main_mainstrp_bright, set_main_adc,
      set_main_clock.
    repeat split.
Qed.

Lemma serialEvent_set_color_witness :
  set_color_line (cmdbuf (with_line "#AABBCC" (power_up 512)))
    {| R := 170; G := 187; B := 204 |} None
  /\ Held (serialEvent_char cfg_main newline (with_line "#AABBCC" (power_up 512)))
  /\ avg (serialEvent_char cfg_main newline (with_line "#AABBCC" (power_up 512)))
     = {| rgb := {| R := 128; G := 128; B := 128 |}; M := 128 |}.
Proof.
  assert (H : set_color_line (cmdbuf (with_line "#AABBCC" (power_up 512)))
                {| R := 170; G := 187; B := 204 |} None).
  { exists "AABBCC"%string, 11189196. repeat split. left. split; reflexivity. }
  split; [exact H|].
  pose proof (serialEvent_set_color cfg_main _ _ _ H) as (P1 & _ & _ & P2 & _).
  split; [exact P1|]. rewrite P2. reflexivity.
Defined.

(** With [NO_MAIN_STRIP] the output after [#01020304] is not the parsed
    colour: its main channel is still 0. *)
Lemma serialEvent_set_color_no_main_strip :
  set_color_line (cmdbuf (with_line "#01020304" (power_up 512)))
    {| R := 1; G := 2; B := 3 |} (Some 4)
  /\ output (serialEvent_char cfg_no_main newline (with_line "#01020304" (power_up 512)))
     = {| rgb := {| R := 1; G := 2; B := 3 |}; M := 0 |}
  /\ output (serialEvent_char cfg_no_main newline (with_line "#01020304" (power_up 512)))
     <> {| rgb := {| R := 1; G := 2; B := 3 |}; M := 4 |}.
Proof.
  split; [|split; [reflexivity|discriminate]].
  exists "010203"%string, 66051. repeat split. right.
  exists "04"%string, 4. repeat split.
Qed.

(** ** The arbitration of loop *)

Lemma loop_pots_eq cfg s :
  loop_pots cfg s
  = if negb (programmed s)
       || rgbm_pot_mov_det cfg (pots_at cfg (adc s) (clock s)) (avg s) (threshold cfg)
    then set_programmed false
           (set_main cfg (M (pots_at cfg (adc s) (clock s)))
              (rgbstrp_set (rgb (pots_at cfg (adc s) (clock s)))
                 (set_rgbmpots (pots_at cfg (adc s) (clock s))
                    (set_clock (clock s + 4) s))))
    else set_rgbmpots (pots_at cfg (adc s) (clock s)) (set_clock (clock s + 4) s).
Proof. unfold loop_pots. rewrite rgbm_pots_read_eq. reflexivity. Qed.

Lemma threshold_nonneg cfg : 0 <= threshold cfg.
Proof. unfold threshold. pose proof (u8_range (POT_MOV_DET_MAX_DEV cfg)). lia. Qed.

Lemma rgbm_pot_mov_det_same cfg c d :
  0 <= d -> rgbm_pot_mov_det cfg c c d = false.
Proof.
  intros Hd. unfold rgbm_pot_mov_det. rewrite !Z.sub_diag.
  change (c_abs (i16 0)) with 0.
  destruct (Z.ltb_spec d 0); [lia|]. now rewrite andb_false_r.
Qed.

Lemma indicator_update_frame (b : bool) s :
  programmed (if b then indicator ind_update s else s) = programmed s
  /\ output (if b then indicator ind_update s else s) = output s
  /\ main_strip (if b then indicator ind_update s else s) = main_strip s
  /\ avg (if b then indicator ind_update s else s) = avg s
  /\ adc (if b then indicator ind_update s else s) = adc s
  /\ clock (if b then indicator ind_update s else s) = clock s.
Proof. destruct b; repeat split. Qed.

Lemma loop_pots_at_baseline cfg s :
  Held s -> fst (rgbm_pots_read cfg s) = avg s ->
  loop_pots cfg s = set_rgbmpots (avg s) (set_clock (clock s + 4) s).
Proof.
  unfold Held. intros Hp Hr. rewrite rgbm_pots_read_eq in Hr. simpl in Hr.
  rewrite loop_pots_eq, Hp, Hr.
  rewrite rgbm_pot_mov_det_same by apply threshold_nonneg. reflexivity.
Qed.

(** A pass with the encoder at rest whose reading is the baseline. *)
Lemma loop_at_baseline cfg b s :
  Held s -> fst (rgbm_pots_read cfg s) = avg s ->
  Held (loop cfg PatchEncoder.none b s)
  /\ output (loop cfg PatchEncoder.none b s) = output s
  /\ main_strip (loop cfg PatchEncoder.none b s) = main_strip s
  /\ avg (loop cfg PatchEncoder.none b s) = avg s.
Proof.
  intros Hp Hr. unfold loop, loop_encoder.
  rewrite (loop_pots_at_baseline cfg s Hp Hr).
  destruct (indicator_update_frame b
    (set_rgbmpots (avg s) (set_clock (clock s + 4) s))) as (E1 & E2 & E3 & E4 & _).
  unfold Held. rewrite E1, E2, E3, E4. repeat split; assumption.
Qed.

Lemma idle_loops_at_baseline cfg busy : forall s,
  Held s ->
  (forall k, (k < length busy)%nat ->
     fst (rgbm_pots_read cfg (idle_loops cfg (firstn k busy) s)) = avg s) ->
  Held (idle_loops cfg busy s)
  /\ output (idle_loops cfg busy s) = output s
  /\ main_strip (idle_loops cfg busy s) = main_strip s
  /\ avg (idle_loops cfg busy s) = avg s.
Proof.
  induction busy as [|b busy IH]; intros s Hp Hr.
  - repeat split. exact Hp.
  - cbn [idle_loops].
    destruct (loop_at_baseline cfg b s Hp (Hr O ltac:(simpl; lia)))
      as (Q1 & Q2 & Q3 & Q4).
    destruct (IH (loop cfg PatchEncoder.none b s) Q1) as (P1 & P2 & P3 & P4).
    + intros k Hk. rewrite Q4. apply (Hr (S k)). simpl. lia.
    + rewrite P2, P3, P4. repeat split; assumption.
Qed.

Lemma loop_deviating cfg b s :
  Held s -> rgbm_u8 (avg s) ->
  deviates cfg (fst (rgbm_pots_read cfg s)) (avg s) (threshold cfg) ->
  Live (loop cfg PatchEncoder.none b s)
  /\ rgbstrp_get (loop cfg PatchEncoder.none b s) = rgb (fst (rgbm_pots_read cfg s))
  /\ mainstrp_bright (loop cfg PatchEncoder.none b s)
     = (if NO_MAIN_STRIP cfg then mainstrp_bright s
        else M (fst (rgbm_pots_read cfg s)))
  /\ main_strip (loop cfg PatchEncoder.none b s)
     = (if NO_MAIN_STRIP cfg then main_strip s
        else M (fst (rgbm_pots_read cfg s))).
Proof.
  unfold Held, Live. intros Hp Hu Hdev.
  rewrite rgbm_pots_read_eq in *. cbn [fst] in *.
  apply rgbm_pot_mov_det_deviates in Hdev; [|apply pots_at_u8|assumption].
  unfold loop, loop_encoder. rewrite loop_pots_eq, Hdev, orb_true_r.
  destruct b; unfold rgbstrp_get;
    cbn [programmed rgbstrp mainstrp_bright main_strip indicator set_programmed];
    rewrite set_main_rgbstrp, set_main_mainstrp_bright, set_main_main_strip;
    repeat split.
Qed.



Lemma change_patch_invalid cfg up s :
  (up = true /\ 9 <= current_patch s) \/ (up = false /\ current_patch s <= 0) ->
  change_patch cfg up s = indicator (ind_show (PATCH_DISPLAY_TIME cfg)) s.
Proof.
  intros [[-> H]|[-> H]]; unfold change_patch; simpl.
  - destruct (Z.ltb_spec (current_patch s) 9); [lia|reflexivity].
  - destruct (Z.ltb_spec 0 (current_patch s)); [lia|reflexivity].
Qed.









Lemma rgbm_pot_mov_det_strict_witness :
  rgbm_pot_mov_det cfg_main
    {| rgb := {| R := 15; G := 25; B := 35 |}; M := 45 |}
    {| rgb := {| R := 15; G := 25; B := 35 |}; M := 45 |} 5 = false
  /\ rgbm_pot_mov_det cfg_main
       {| rgb := {| R := 15; G := 25; B := 35 |}; M := 45 |}
       {| rgb := {| R := 10; G := 20; B := 30 |}; M := 40 |} 5 = false
  /\ rgbm_pot_mov_det cfg_main
       {| rgb := {| R := 15; G := 25; B := 35 |}; M := 45 |}
       {| rgb := {| R := 10; G := 20; B := 30 |}; M := 40 |} 4 = true.
Proof.
  assert (U1 : rgbm_u8 {| rgb := {| R := 15; G := 25; B := 35 |}; M := 45 |})
    by (unfold rgbm_u8, is_u8; simpl; lia).
  assert (U2 : rgbm_u8 {| rgb := {| R := 10; G := 20; B := 30 |}; M := 40 |})
    by (unfold rgbm_u8, is_u8; simpl; lia).
  destruct (rgbm_pot_mov_det_strict cfg_main _ _ 5 U1 U2 ltac:(lia))
    as (P1 & _ & P3).
  destruct (rgbm_pot_mov_det_strict cfg_main _ _ 4 U1 U2 ltac:(lia))
    as (_ & P2 & _).
  split; [exact P1|]. split; [apply P3; reflexivity|].
  apply P2. left. simpl. lia.
Defined.

(** ** Patches *)

Lemma change_patch_up cfg s :
  current_patch s < 9 ->
  change_patch cfg true s
  = indicator (ind_show (PATCH_DISPLAY_TIME cfg))
      (indicator (ind_set (u8 (current_patch s + 1)))
         (set_programmed true
            (read_avg cfg
               (set_main cfg (M (patches_at (patches s) (u8 (current_patch s + 1))))
                  (rgbstrp_set (rgb (patches_at (patches s) (u8 (current_patch s + 1))))
                     (set_current_patch (u8 (current_patch s + 1)) s)))))).
Proof.
  intros H. unfold change_patch. simpl.
  destruct (Z.ltb_spec (current_patch s) 9); [|lia].
  cbv beta iota zeta. simpl negb. cbv iota.
  rewrite !read_avg_eq. unfold set_main. destruct (NO_MAIN_STRIP cfg); reflexivity.
Qed.

Lemma change_patch_down cfg s :
  0 < current_patch s ->
  change_patch cfg false s
  = indicator (ind_show (PATCH_DISPLAY_TIME cfg))
      (indicator (ind_set (u8 (current_patch s - 1)))
         (set_programmed true
            (read_avg cfg
               (set_main cfg (M (patches_at (patches s) (u8 (current_patch s - 1))))
                  (rgbstrp_set (rgb (patches_at (patches s) (u8 (current_patch s - 1))))
                     (set_current_patch (u8 (current_patch s - 1)) s)))))).
Proof.
  intros H. unfold change_patch. simpl.
  destruct (Z.ltb_spec 0 (current_patch s)); [|lia].
  cbv beta iota zeta. simpl negb. cbv iota.
  rewrite !read_avg_eq. unfold set_main. destruct (NO_MAIN_STRIP cfg); reflexivity.
Qed.

Lemma set_main_current_patch cfg v s :
  current_patch (set_main cfg v s) = current_patch s.
Proof. unfold set_main. destruct (NO_MAIN_STRIP cfg); reflexivity. Qed.

Lemma set_main_patches cfg v s : patches (set_main cfg v s) = patches s.
Proof. unfold set_main. destruct (NO_MAIN_STRIP cfg); reflexivity. Qed.

Lemma change_patch_current_patch cfg up s :
  current_patch (change_patch cfg up s)
  = if up then (if current_patch s <? 9 then u8 (current_patch s + 1) else current_patch s)
    else (if 0 <? current_patch s then u8 (current_patch s - 1) else current_patch s).
Proof.
  destruct up.
  - destruct (Z.ltb_spec (current_patch s) 9).
    + rewrite change_patch_up, read_avg_eq by assumption. simpl.
      rewrite set_main_current_patch. reflexivity.
    + rewrite change_patch_invalid by (left; split; [reflexivity|lia]). reflexivity.
  - destruct (Z.ltb_spec 0 (current_patch s)).
    + rewrite change_patch_down, read_avg_eq by assumption. simpl.
      rewrite set_main_current_patch. reflexivity.
    + rewrite change_patch_invalid by (right; split; [reflexivity|lia]). reflexivity.
Qed.

Lemma change_patch_patches cfg up s :
  patches (change_patch cfg up s) = patches s.
Proof.
  destruct up.
  - destruct (Z.ltb_spec (current_patch s) 9).
    + rewrite change_patch_up, read_avg_eq by assumption. simpl.
      rewrite set_main_patches. reflexivity.
    + rewrite change_patch_invalid by (left; split; [reflexivity|lia]). reflexivity.
  - destruct (Z.ltb_spec 0 (current_patch s)).
    + rewrite change_patch_down, read_avg_eq by assumption. simpl.
      rewrite set_main_patches. reflexivity.
    + rewrite change_patch_invalid by (right; split; [reflexivity|lia]). reflexivity.
Qed.

Lemma change_patch_bank_ok cfg up s : bank_ok s -> bank_ok (change_patch cfg up s).
Proof.
  unfold bank_ok. intros [Hl Hc].
  rewrite change_patch_patches, change_patch_current_patch. split; [exact Hl|].
  destruct up.
  - destruct (Z.ltb_spec (current_patch s) 9); [rewrite u8_small|]; lia.
  - destruct (Z.ltb_spec 0 (current_patch s)); [rewrite u8_small|]; lia.
Qed.

Lemma read_avg_bank cfg s :
  patches (read_avg cfg s) = patches s
  /\ current_patch (read_avg cfg s) = current_patch s.
Proof. rewrite read_avg_eq. split; reflexivity. Qed.

Lemma loop_pots_bank cfg s :
  patches (loop_pots cfg s) = patches s
  /\ current_patch (loop_pots cfg s) = current_patch s.
Proof.
  rewrite loop_pots_eq.
  destruct (negb (programmed s) || _); simpl;
    rewrite ?set_main_patches, ?set_main_current_patch; split; reflexivity.
Qed.

Lemma save_patch_bank_ok cfg s : bank_ok s -> bank_ok (save_patch cfg s).
Proof.
  unfold bank_ok, save_patch. simpl. rewrite length_insert. tauto.
Qed.

Lemma loop_bank_ok cfg a b s : bank_ok s -> bank_ok (loop cfg a b s).
Proof.
  intros H.
  assert (H1 : bank_ok (loop_pots cfg s)).
  { unfold bank_ok in *. destruct (loop_pots_bank cfg s) as [-> ->]. exact H. }
  assert (H2 : bank_ok (loop_encoder cfg a (loop_pots cfg s))).
  { destruct a; cbn [loop_encoder];
      [exact H1 | now apply save_patch_bank_ok
       | now apply change_patch_bank_ok | now apply change_patch_bank_ok]. }
  unfold loop. destruct b; exact H2.
Qed.

Lemma serialEvent_char_bank cfg ch s :
  patches (serialEvent_char cfg ch s) = patches s
  /\ current_patch (serialEvent_char cfg ch s) = current_patch s.
Proof.
  unfold serialEvent_char. cbv zeta.
  destruct (char_code ch =? 103); [split; reflexivity|].
  destruct (char_code ch =? 7); [split; reflexivity|].
  destruct (char_code ch =? 10); [|split; reflexivity].
  destruct (_ =? RGB_HEX_STR_LEN).
  - destruct (hexstr_to_rgb (cmdbuf s)); simpl;
      [destruct (read_avg_bank cfg (rgbstrp_set r s)) as [-> ->]|];
      split; reflexivity.
  - destruct (_ =? RGBM_HEX_STR_LEN); [|split; reflexivity].
    destruct (hexstr_to_rgbm (cmdbuf s) unassigned) as [[] v]; simpl;
      [|split; reflexivity].
    destruct (read_avg_bank cfg (set_main cfg (M v) (rgbstrp_set (rgb v) s)))
      as [-> ->].
    rewrite set_main_patches, set_main_current_patch. split; reflexivity.
Qed.

Lemma serialEvent_bank_ok cfg rx : forall s,
  bank_ok s -> bank_ok (serialEvent cfg rx s).
Proof.
  induction rx as [|ch rx IH]; intros s H; simpl; [exact H|].
  apply IH. unfold bank_ok in *.
  destruct (serialEvent_char_bank cfg ch s) as [-> ->]. exact H.
Qed.

Lemma setup_bank_ok cfg s : bank_ok (setup cfg s).
Proof.
  unfold bank_ok, setup. cbv zeta.
  match goal with
  | |- context [read_avg cfg ?x] => destruct (read_avg_bank cfg x) as [E1 E2]
  end.
  cbn [patches current_patch set_programmed]. rewrite E1, E2.
  cbn [patches current_patch indicator].
  rewrite set_main_patches, set_main_current_patch. simpl. split; [reflexivity|lia].
Qed.

(** The patch bank stays well formed for as long as the firmware runs. *)
Lemma firmware_bank_ok cfg ins s : bank_ok (firmware cfg ins s).
Proof.
  unfold firmware. generalize (setup cfg s) (setup_bank_ok cfg s).
  induction ins as [|i ins IH]; intros t Ht; simpl; [exact Ht|].
  apply IH. unfold pass. apply serialEvent_bank_ok, loop_bank_ok, Ht.
Qed.

(** C6 (as the code has it).  The patch cursor stays within 0..9 for as
    long as the firmware runs.  From cursor 0 a request for the previous
    patch, and from cursor 9 a request for the next one, leave the cursor
    and every other variable as they are, except that the indicator is
    still asked to show for [PATCH_DISPLAY_TIME]; every other request
    moves the cursor by exactly one. *)
Theorem change_patch_cursor cfg :
  (forall ins s, 0 <= current_patch (firmware cfg ins s) <= 9)
  /\ (forall (up : bool) (s : state),
        0 <= current_patch s <= 9 ->
        0 <= current_patch (change_patch cfg up s) <= 9
        /\ (current_patch s = 0 ->
            change_patch cfg false s = indicator (ind_show (PATCH_DISPLAY_TIME cfg)) s
            /\ current_patch (change_patch cfg false s) = current_patch s
            /\ patch_indicator (change_patch cfg false s)
               = patch_indicator s ++ [ind_show (PATCH_DISPLAY_TIME cfg)])
        /\ (current_patch s = 9 ->
            change_patch cfg true s = indicator (ind_show (PATCH_DISPLAY_TIME cfg)) s
            /\ current_patch (change_patch cfg true s) = current_patch s
            /\ patch_indicator (change_patch cfg true s)
               = patch_indicator s ++ [ind_show (PATCH_DISPLAY_TIME cfg)])
        /\ (current_patch s < 9 ->
            current_patch (change_patch cfg true s) = current_patch s + 1)
        /\ (0 < current_patch s ->
            current_patch (change_patch cfg false s) = current_patch s - 1)).
Proof.
  split.
  - intros ins s. apply firmware_bank_ok.
  - intros up s Hc. repeat split.
    + rewrite change_patch_current_patch. destruct up.
      * destruct (Z.ltb_spec (current_patch s) 9); [rewrite u8_small|]; lia.
      * destruct (Z.ltb_spec 0 (current_patch s)); [rewrite u8_small|]; lia.
    + rewrite change_patch_current_patch. destruct up.
      * destruct (Z.ltb_spec (current_patch s) 9); [rewrite u8_small|]; lia.
      * destruct (Z.ltb_spec 0 (current_patch s)); [rewrite u8_small|]; lia.
    + apply change_patch_invalid. right. split; [reflexivity|lia].
    + rewrite change_patch_invalid by (right; split; [reflexivity|lia]). reflexivity.
    + rewrite change_patch_invalid by (right; split; [reflexivity|lia]). reflexivity.
    + apply change_patch_invalid. left. split; [reflexivity|lia].
    + rewrite change_patch_invalid by (left; split; [reflexivity|lia]). reflexivity.
    + rewrite change_patch_invalid by (left; split; [reflexivity|lia]). reflexivity.
    + intros H. rewrite change_patch_current_patch.
      destruct (Z.ltb_spec (current_patch s) 9); [apply u8_small|]; lia.
    + intros H. rewrite change_patch_current_patch.
      destruct (Z.ltb_spec 0 (current_patch s)); [apply u8_small|]; lia.
Qed.

Lemma change_patch_cursor_witness :
  0 <= current_patch (power_up 512) <= 9
  /\ current_patch (change_patch cfg_main true (power_up 512)) = 1
  /\ current_patch (change_patch cfg_main false (power_up 512)) = 0.
Proof.
  assert (H : 0 <= current_patch (power_up 512) <= 9) by (simpl; lia).
  split; [exact H|].
  destruct (proj2 (change_patch_cursor cfg_main) true (power_up 512) H)
    as (_ & P0 & _ & Pup & _).
  split; [apply Pup; simpl; lia|]. apply P0. reflexivity.
Defined.

(** At cursor 0 a request for the previous patch is not without a visible
    response: the indicator receives a show call. *)
Lemma change_patch_invalid_shows :
  current_patch (power_up 512) = 0
  /\ patch_indicator (power_up 512) = []
  /\ patch_indicator (change_patch cfg_main false (power_up 512)) = [ind_show 1000]
  /\ change_patch cfg_main false (power_up 512) <> power_up 512.
Proof.
  repeat split. intros H. apply (f_equal patch_indicator) in H. discriminate H.
Qed.

(** ** save_patch *)

Lemma EEPROM_get_put addr v e : EEPROM_get addr (EEPROM_put addr v e) = v.
Proof.
  unfold EEPROM_get, EEPROM_put, EEPROM_read.
  rewrite !lookup_insert. 
  repeat (case_decide; try lia). destruct v as [[r g b] m]. reflexivity.
Qed.

Lemma EEPROM_get_patches_lookup addr e (k : nat) :
  (k < 10)%nat ->
  EEPROM_get_patches addr e !! k = Some (EEPROM_get (addr + sizeof_rgbm * Z.of_nat k) e).
Proof.
  intros H. unfold EEPROM_get_patches.
  do 10 (destruct k as [|k]; [reflexivity|]). lia.
Qed.

(** C8.  [save_patch] leaves the Held flag, the cursor and the output as
    they are, and stores the current output, the strip colour read back
    with [rgbstrp.get()] and the main brightness, neither taken from the
    potentiometer reading, in the slot at the cursor: in the array, and in
    the EEPROM at the address of that slot, from where the next start-up
    loads it back into the same slot. *)
Theorem save_patch_persists_output cfg (s : state) :
  bank_ok s ->
  programmed (save_patch cfg s) = programmed s
  /\ current_patch (save_patch cfg s) = current_patch s
  /\ output (save_patch cfg s) = output s
  /\ patches (save_patch cfg s) !! Z.to_nat (current_patch s)
     = Some {| rgb := rgbstrp_get s; M := mainstrp_bright s |}
  /\ (forall j, j <> Z.to_nat (current_patch s) ->
        patches (save_patch cfg s) !! j = patches s !! j)
  /\ EEPROM_get (EEPROM_PATCH_ADDR cfg + sizeof_rgbm * current_patch s)
       (eeprom (save_patch cfg s))
     = {| rgb := rgbstrp_get s; M := mainstrp_bright s |}
  /\ EEPROM_get_patches (EEPROM_PATCH_ADDR cfg) (eeprom (save_patch cfg s))
       !! Z.to_nat (current_patch s)
     = Some {| rgb := rgbstrp_get s; M := mainstrp_bright s |}
  /\ loop_encoder cfg PatchEncoder.pressed s = save_patch cfg s.
Proof.
  intros [Hl Hc].
  assert (Hi : (Z.to_nat (current_patch s) < length (patches s))%nat) by lia.
  assert (Hat : patches_at (<[Z.to_nat (current_patch s) :=
                    {| rgb := rgbstrp_get s; M := mainstrp_bright s |}]> (patches s))
                  (current_patch s)
                = {| rgb := rgbstrp_get s; M := mainstrp_bright s |}).
  { unfold patches_at. rewrite list_lookup_insert_eq by exact Hi. reflexivity. }
  unfold save_patch. cbv zeta.
  cbn [programmed current_patch patches eeprom output rgbstrp_get rgbstrp
       mainstrp_bright indicator set_eeprom set_patches].
  rewrite Hat. repeat split.
  - apply list_lookup_insert_eq. exact Hi.
  - intros j Hj. apply list_lookup_insert_ne. congruence.
  - apply EEPROM_get_put.
  - rewrite EEPROM_get_patches_lookup by lia.
    rewrite Z2Nat.id by lia. f_equal. apply EEPROM_get_put.
  - cbn [loop_encoder]. unfold save_patch. cbv zeta.
    cbn [current_patch patches eeprom set_patches]. rewrite Hat. reflexivity.
Qed.

Lemma save_patch_persists_output_witness :
  bank_ok (loop cfg_main PatchEncoder.none false (power_up 512))
  /\ rgbmpots (loop cfg_main PatchEncoder.none false (power_up 512))
     = {| rgb := {| R := 128; G := 128; B := 128 |}; M := 128 |}
  /\ patches (save_patch cfg_main
                (rgbstrp_set {| R := 1; G := 2; B := 3 |}
                   (loop cfg_main PatchEncoder.none false (power_up 512)))) !! 0%nat
     = Some {| rgb := {| R := 1; G := 2; B := 3 |}; M := 128 |}.
Proof.
  assert (H : bank_ok (rgbstrp_set {| R := 1; G := 2; B := 3 |}
                         (loop cfg_main PatchEncoder.none false (power_up 512)))).
  { split; [reflexivity|simpl; lia]. }
  split; [split; [reflexivity|simpl; lia]|]. split; [reflexivity|].
  destruct (save_patch_persists_output cfg_main _ H) as (_ & _ & _ & P & _).
  exact P.
Defined.

(** ** Scenarios *)

(** Start-up with 10, 20, 30, 40 stored in slot 0: Held, and the output
    reads back as stored. *)
Example boot_loads_patch_0 :
  Held (setup cfg_main
          (set_eeprom (EEPROM_put 0 {| rgb := {| R := 10; G := 20; B := 30 |}; M := 40 |} ∅)
             (power_up 512)))
  /\ output (setup cfg_main
          (set_eeprom (EEPROM_put 0 {| rgb := {| R := 10; G := 20; B := 30 |}; M := 40 |} ∅)
             (power_up 512)))
     = {| rgb := {| R := 10; G := 20; B := 30 |}; M := 40 |}.
Proof. split; reflexivity. Qed.

(** [#AABBCC] and a line feed received while Live. *)
Example serial_rgb_line :
  Live (power_up 512)
  /\ Held (serialEvent cfg_main ("#AABBCC" ++ String newline EmptyString) (power_up 512))
  /\ output (serialEvent cfg_main ("#AABBCC" ++ String newline EmptyString) (power_up 512))
     = {| rgb := {| R := 170; G := 187; B := 204 |}; M := 0 |}.
Proof. repeat split. Qed.

Example serial_rgbm_line :
  output (serialEvent cfg_main ("#AABBCCDD" ++ String newline EmptyString) (power_up 512))
  = {| rgb := {| R := 170; G := 187; B := 204 |}; M := 221 |}.
Proof. reflexivity. Qed.

Example serial_query :
  serial (serialEvent cfg_main ("#AABBCCDD" ++ String newline (String "g" EmptyString))
            (power_up 512))
  = ["Current Color: #aabbccdd"; "R: 170"; "G: 187"; "B: 204"; "M: 221"]%string.
Proof. reflexivity. Qed.

Example serial_malformed_line :
  serialEvent cfg_main ("#ZZZZZZ" ++ String newline EmptyString) (power_up 512)
  = Serial_println "Invalid hex value!" (power_up 512).
Proof. reflexivity. Qed.

(** * Further properties of the firmware *)

(** ** uint32_pow and hexstr_to_uint32 beyond 32 bits *)

(** [uint32_pow] is the power reduced modulo 2^32: exact as long as the
    power fits 32 bits, wrapped (without any sign of it) beyond. *)
Theorem uint32_pow_modulo (base pow : Z) :
  0 <= pow ->
  uint32_pow base pow = u32 (base ^ pow)
  /\ (0 <= base ^ pow < 2 ^ 32 -> uint32_pow base pow = base ^ pow).
Proof.
  intros Hp.
  assert (E : uint32_pow base pow = u32 (base ^ pow)).
  { unfold uint32_pow. rewrite <- uint32_pow_wrapped by reflexivity.
    rewrite uint32_pow_loop_eq, Z2Nat.id, Z.mul_1_l by lia. reflexivity. }
  split; [exact E|]. intros Hr. rewrite E. now apply u32_small.
Qed.

Lemma uint32_pow_modulo_witness :
  uint32_pow 16 7 = 268435456 /\ uint32_pow 16 8 = 0.
Proof.
  destruct (uint32_pow_modulo 16 7 ltac:(lia)) as [_ P7].
  destruct (uint32_pow_modulo 16 8 ltac:(lia)) as [P8 _].
  split; [rewrite P7; [reflexivity|simpl; lia]|rewrite P8; reflexivity].
Defined.

(** [hexstr_to_uint32] never fails for being too long or too short: the
    empty string gives 0, and digits beyond the eighth push the value past
    32 bits, of which the low 32 are returned with success. *)
Theorem hexstr_to_uint32_modulo (s : string) :
  (String.length s <= 256)%nat ->
  hexstr_to_uint32 s = option_map u32 (positional_hex 0 s)
  /\ (all_hex s = true -> exists v, positional_hex 0 s = Some v
                                   /\ hexstr_to_uint32 s = Some (v mod 2 ^ 32))
  /\ (all_hex s = false -> hexstr_to_uint32 s = None).
Proof.
  intros H. pose proof (hexstr_to_uint32_wraps s H) as E.
  split; [exact E|]. split.
  - intros Ha. destruct (proj1 (positional_hex_all_hex s 0) Ha) as [v Hv].
    exists v. split; [exact Hv|]. rewrite E, Hv. reflexivity.
  - intros Ha. rewrite E, (positional_hex_not_hex s 0 Ha). reflexivity.
Qed.

Lemma hexstr_to_uint32_modulo_witness :
  hexstr_to_uint32 "" = Some 0
  /\ exists v, positional_hex 0 "123456789" = Some v
               /\ hexstr_to_uint32 "123456789" = Some (v mod 2 ^ 32).
Proof.
  split.
  - destruct (hexstr_to_uint32_modulo ""%string ltac:(simpl; lia)) as [P _].
    rewrite P. reflexivity.
  - apply (hexstr_to_uint32_modulo "123456789"%string); [simpl; lia|reflexivity].
Defined.

(** ** adc_to_rgb *)

(** Over the range of the converter [adc_to_rgb] is monotone, gives 0 for
    the reading 0 only, and reaches every 8-bit value. *)
Theorem adc_to_rgb_monotone (a b : Z) :
  0 <= a <= b -> b <= 1023 ->
  adc_to_rgb a <= adc_to_rgb b
  /\ (adc_to_rgb a = 0 <-> a = 0)
  /\ (forall v, 0 <= v <= 255 -> exists raw, 0 <= raw <= 1023 /\ adc_to_rgb raw = v).
Proof.
  intros Hab Hb.
  assert (E : forall x, 4 <= x <= 1023 -> adc_to_rgb x = x / 4 /\ 1 <= x / 4).
  { intros x Hx. unfold adc_to_rgb.
    destruct (Z.eqb_spec x 0); [lia|]. destruct (Z.ltb_spec x 4); [lia|].
    rewrite Z.shiftr_div_pow2 by lia. change (2 ^ 2) with 4.
    assert (1 <= x / 4 <= 255).
    { split; [apply Z.div_le_lower_bound; lia|].
      apply Z.lt_succ_r, Z.div_lt_upper_bound; lia. }
    rewrite u8_small by lia. lia. }
  assert (S1 : forall x, 0 <= x < 4 -> adc_to_rgb x = if x =? 0 then 0 else 1).
  { intros x Hx. unfold adc_to_rgb. destruct (Z.eqb_spec x 0); [reflexivity|].
    destruct (Z.ltb_spec x 4); [reflexivity|lia]. }
  repeat split.
  - destruct (Z.lt_ge_cases a 4) as [Ha|Ha], (Z.lt_ge_cases b 4) as [Hb4|Hb4].
    + rewrite !S1 by lia.
      destruct (Z.eqb_spec a 0), (Z.eqb_spec b 0); lia.
    + rewrite S1 by lia. destruct (E b) as [-> ?]; [lia|].
      destruct (a =? 0); lia.
    + lia.
    + destruct (E a) as [-> ?]; [lia|]. destruct (E b) as [-> ?]; [lia|].
      apply Z.div_le_mono; lia.
  - intros H0. destruct (Z.lt_ge_cases a 4) as [Ha|Ha].
    + rewrite S1 in H0 by lia. destruct (Z.eqb_spec a 0); [assumption|lia].
    + destruct (E a) as [E1 ?]; lia.
  - intros ->. reflexivity.
  - intros v Hv. destruct (Z.eq_dec v 0) as [->|Hn].
    + exists 0. split; [lia|reflexivity].
    + exists (4 * v). split; [lia|].
      destruct (E (4 * v)) as [-> _]; [lia|].
      rewrite Z.mul_comm. apply Z.div_mul. lia.
Qed.

Lemma adc_to_rgb_monotone_witness :
  adc_to_rgb 3 <= adc_to_rgb 4 /\ (adc_to_rgb 3 = 0 <-> 3 = 0).
Proof.
  destruct (adc_to_rgb_monotone 3 4 ltac:(lia) ltac:(lia)) as (P1 & P2 & _).
  split; assumption.
Defined.

(** ** The channels of a parsed colour *)

Lemma HtmlColor_bytes r g b :
  is_u8 r -> is_u8 g -> is_u8 b ->
  HtmlColor (65536 * r + 256 * g + b) = {| R := r; G := g; B := b |}.
Proof.
  unfold is_u8, HtmlColor. intros Hr Hg Hb.
  change 255 with (Z.ones 8). rewrite !Z.land_ones by lia.
  rewrite !Z.shiftr_div_pow2 by lia.
  change (2 ^ 16) with 65536. change (2 ^ 8) with 256.
  f_equal.
  - assert ((65536 * r + 256 * g + b) / 65536 = r) as ->.
    { symmetry. apply (Z.div_unique _ _ _ (256 * g + b)); lia. }
    apply Z.mod_small. lia.
  - assert ((65536 * r + 256 * g + b) / 256 = 256 * r + g) as ->.
    { symmetry. apply (Z.div_unique _ _ _ b); lia. }
    rewrite Z.add_comm, Z.mul_comm, Z.mod_add by lia. apply Z.mod_small. lia.
  - replace (65536 * r + 256 * g + b) with (b + (256 * r + g) * 256) by ring.
    rewrite Z.mod_add by lia. apply Z.mod_small. lia.
Qed.

(** In [#RRGGBB] the first pair of digits is the red channel, the second
    the green and the third the blue one, each pair read as a two-digit
    hexadecimal number. *)
Theorem hexstr_to_rgb_channels (c1 c2 c3 c4 c5 c6 : ascii) (d1 d2 d3 d4 d5 d6 : Z) :
  hex_digit c1 = Some d1 -> hex_digit c2 = Some d2 ->
  hex_digit c3 = Some d3 -> hex_digit c4 = Some d4 ->
  hex_digit c5 = Some d5 -> hex_digit c6 = Some d6 ->
  hexstr_to_rgb
    (String "#" (String c1 (String c2 (String c3 (String c4 (String c5
       (String c6 EmptyString)))))))
  = Some {| R := 16 * d1 + d2; G := 16 * d3 + d4; B := 16 * d5 + d6 |}.
Proof.
  intros H1 H2 H3 H4 H5 H6.
  pose proof (hex_digit_range _ _ H1). pose proof (hex_digit_range _ _ H2).
  pose proof (hex_digit_range _ _ H3). pose proof (hex_digit_range _ _ H4).
  pose proof (hex_digit_range _ _ H5). pose proof (hex_digit_range _ _ H6).
  rewrite (hexstr_to_rgb_six _
             (65536 * (16 * d1 + d2) + 256 * (16 * d3 + d4) + (16 * d5 + d6))).
  - rewrite HtmlColor_bytes by (unfold is_u8; lia). reflexivity.
  - reflexivity.
  - cbn [positional_hex]. rewrite H1, H2, H3, H4, H5, H6. f_equal. ring.
Qed.

Lemma hexstr_to_rgb_channels_witness :
  hexstr_to_rgb "#1aB2c3" = Some {| R := 16 * 1 + 10; G := 16 * 11 + 2; B := 16 * 12 + 3 |}.
Proof.
  apply (hexstr_to_rgb_channels "1" "a" "B" "2" "c" "3"); reflexivity.
Defined.

(** ** print_rgbm *)

Lemma hex_digit_digit_char d :
  0 <= d < 16 -> hex_digit (digit_char d) = Some d.
Proof.
  intros H.
  assert (d = 0 \/ d = 1 \/ d = 2 \/ d = 3 \/ d = 4 \/ d = 5 \/ d = 6 \/ d = 7
          \/ d = 8 \/ d = 9 \/ d = 10 \/ d = 11 \/ d = 12 \/ d = 13 \/ d = 14
          \/ d = 15) as E by lia.
  repeat (destruct E as [->|E]; [reflexivity|]). subst d. reflexivity.
Qed.

(** The two hexadecimal digits [print_rgbm] prints for a channel. *)
Lemma pad2_hex v :
  is_u8 v ->
  pad2 (String_of_uchar v HEX)
  = String (digit_char (v / 16)) (String (digit_char (v mod 16)) EmptyString).
Proof.
  unfold is_u8, String_of_uchar, HEX. intros Hv.
  assert (Hq : 0 <= v / 16 < 16).
  { split; [apply Z.div_pos; lia|apply Z.div_lt_upper_bound; lia]. }
  cbn [utoa_loop]. destruct (Z.eqb_spec (v / 16) 0) as [E|E].
  - rewrite E. reflexivity.
  - rewrite (Z.mod_small (v / 16) 16) by lia.
    rewrite (Z.div_small (v / 16) 16) by lia. reflexivity.
Qed.

(** The colour line of the query answer is itself a set-colour command:
    what follows "Current Color: " is [#], eight hexadecimal digits, and
    [hexstr_to_rgbm] parses it back to the colour that was printed. *)
Theorem print_rgbm_parses_back (c : rgbm) (s : state) (out : rgbm) :
  rgbm_u8 c ->
  exists h,
    serial (print_rgbm c s)
    = serial s ++ [("Current Color: " ++ h)%string;
                   ("R: " ++ String_of_uchar (R (rgb c)) DEC)%string;
                   ("G: " ++ String_of_uchar (G (rgb c)) DEC)%string;
                   ("B: " ++ String_of_uchar (B (rgb c)) DEC)%string;
                   ("M: " ++ String_of_uchar (M c) DEC)%string]
    /\ String.length h = 9%nat
    /\ hexstr_to_rgbm h out = (true, c).
Proof.
  destruct c as [[r g b] m]. unfold rgbm_u8, is_u8. cbn [rgb R G B M].
  intros (Hr & Hg & Hb & Hm).
  assert (Q : forall v, 0 <= v <= 255 ->
            0 <= v / 16 < 16 /\ 0 <= v mod 16 < 16 /\ 16 * (v / 16) + v mod 16 = v).
  { intros v Hv. pose proof (Z.div_mod v 16 ltac:(lia)).
    pose proof (Z.mod_pos_bound v 16 ltac:(lia)).
    repeat split; try lia;
      try (apply Z.div_pos; lia); apply Z.div_lt_upper_bound; lia. }
  destruct (Q r Hr) as (Qr1 & Qr2 & Qr3). destruct (Q g Hg) as (Qg1 & Qg2 & Qg3).
  destruct (Q b Hb) as (Qb1 & Qb2 & Qb3). destruct (Q m Hm) as (Qm1 & Qm2 & Qm3).
  exists (String "#"
            ((pad2 (String_of_uchar r HEX) ++ pad2 (String_of_uchar g HEX)
              ++ pad2 (String_of_uchar b HEX)) ++ pad2 (String_of_uchar m HEX)))%string.
  rewrite !pad2_hex by (unfold is_u8; lia).
  split; [|split].
  - unfold print_rgbm. cbn [rgb R G B M serial Serial_println].
    rewrite !pad2_hex by (unfold is_u8; lia).
    rewrite <- !app_assoc. reflexivity.
  - reflexivity.
  - rewrite (hexstr_to_rgbm_cuts _ _ out (65536 * r + 256 * g + b));
      [ | reflexivity | reflexivity | ].
    + cbn [positional_hex]. rewrite !hex_digit_digit_char by lia.
      rewrite HtmlColor_bytes by (unfold is_u8; lia).
      rewrite u8_small by lia. do 2 f_equal. lia.
    + cbv beta iota fix delta [String.append]. cbn [positional_hex].
      rewrite !hex_digit_digit_char by lia.
      f_equal. lia.
Qed.

Lemma print_rgbm_parses_back_witness :
  exists h,
    serial (print_rgbm {| rgb := {| R := 170; G := 5; B := 0 |}; M := 255 |} (power_up 512))
    = [] ++ [("Current Color: " ++ h)%string; "R: 170"%string; "G: 5"%string;
             "B: 0"%string; "M: 255"%string]
    /\ String.length h = 9%nat
    /\ hexstr_to_rgbm h black
       = (true, {| rgb := {| R := 170; G := 5; B := 0 |}; M := 255 |}).
Proof.
  apply (print_rgbm_parses_back
           {| rgb := {| R := 170; G := 5; B := 0 |}; M := 255 |} (power_up 512) black).
  unfold rgbm_u8, is_u8. simpl. lia.
Defined.

(** ** Characters other than the line terminator *)

(** Only the line terminator can change the colour, the Held flag, the
    baseline or the patches: the query prints, the credits animation ends
    with the colour restored, every other character is appended to the
    buffer, and the query and the credits character empty the buffer. *)
Theorem serialEvent_char_keeps_state cfg (ch : ascii) (s : state) :
  char_code ch <> 10 ->
  output (serialEvent_char cfg ch s) = output s
  /\ main_strip (serialEvent_char cfg ch s) = main_strip s
  /\ programmed (serialEvent_char cfg ch s) = programmed s
  /\ avg (serialEvent_char cfg ch s) = avg s
  /\ patches (serialEvent_char cfg ch s) = patches s
  /\ current_patch (serialEvent_char cfg ch s) = current_patch s
  /\ eeprom (serialEvent_char cfg ch s) = eeprom s
  /\ clock (serialEvent_char cfg ch s) = clock s
  /\ cmdbuf (serialEvent_char cfg ch s)
     = (if (char_code ch =? 103) || (char_code ch =? 7) then EmptyString
        else (cmdbuf s ++ String ch EmptyString)%string)
  /\ (char_code ch <> 103 -> serial (serialEvent_char cfg ch s) = serial s).
Proof.
  intros Hnl. unfold serialEvent_char. cbv zeta.
  destruct (Z.eqb_spec (char_code ch) 103) as [Eg|Eg].
  { repeat split. intros H. contradiction. }
  destruct (Z.eqb_spec (char_code ch) 7) as [Ea|Ea].
  { repeat split. }
  destruct (Z.eqb_spec (char_code ch) 10) as [En|En]; [contradiction|].
  repeat split.
Qed.

Lemma serialEvent_char_keeps_state_witness :
  char_code "a" <> 10
  /\ output (serialEvent_char cfg_main "a" (with_line "#AABBC" (power_up 512)))
     = output (with_line "#AABBC" (power_up 512))
  /\ cmdbuf (serialEvent_char cfg_main "007" (with_line "#AABBC" (power_up 512)))
     = EmptyString.
Proof.
  assert (H1 : char_code "a" <> 10) by (vm_compute; discriminate).
  assert (H2 : char_code "007" <> 10) by (vm_compute; discriminate).
  split; [exact H1|].
  destruct (serialEvent_char_keeps_state cfg_main "a"
              (with_line "#AABBC" (power_up 512)) H1) as (P & _).
  destruct (serialEvent_char_keeps_state cfg_main "007"
              (with_line "#AABBC" (power_up 512)) H2)
    as (_ & _ & _ & _ & _ & _ & _ & _ & Q & _).
  split; [exact P|exact Q].
Defined.

(** ** From received characters to a command *)

Lemma set_cmdbuf_id s : set_cmdbuf (cmdbuf s) s = s.
Proof. destruct s. reflexivity. Qed.

Lemma string_app_cons (x : ascii) (a b : string) :
  (String x a ++ b = String x (a ++ b))%string.
Proof. reflexivity. Qed.

Lemma string_app_assoc (a b c : string) :
  ((a ++ b) ++ c = a ++ (b ++ c))%string.
Proof.
  induction a as [|x a IH]; [reflexivity|].
  rewrite !string_app_cons. now rewrite IH.
Qed.

Lemma string_app_empty (a : string) : (a ++ EmptyString = a)%string.
Proof.
  induction a as [|x a IH]; [reflexivity|].
  rewrite string_app_cons. now rewrite IH.
Qed.

Lemma serialEvent_char_buffers cfg ch s :
  buffered_char ch = true ->
  serialEvent_char cfg ch s = set_cmdbuf (cmdbuf s ++ String ch EmptyString) s.
Proof.
  unfold buffered_char, serialEvent_char. cbv zeta.
  destruct (char_code ch =? 103); [discriminate|].
  destruct (char_code ch =? 7); [discriminate|].
  destruct (char_code ch =? 10); [discriminate|]. reflexivity.
Qed.

Lemma serialEvent_buffers cfg line : forall s,
  buffered line = true ->
  serialEvent cfg line s = set_cmdbuf (cmdbuf s ++ line) s.
Proof.
  induction line as [|ch line IH]; intros s H.
  - cbn [serialEvent]. now rewrite string_app_empty, set_cmdbuf_id.
  - cbn [buffered] in H. apply andb_true_iff in H as [Hc Hl].
    cbn [serialEvent]. rewrite (serialEvent_char_buffers cfg ch s Hc), IH by exact Hl.
    simpl. rewrite string_app_assoc. reflexivity.
Qed.

Lemma serialEvent_app cfg a : forall b s,
  serialEvent cfg (a ++ b) s = serialEvent cfg b (serialEvent cfg a s).
Proof.
  induction a as [|x a IH]; intros b s; [reflexivity|].
  rewrite string_app_cons. cbn [serialEvent]. apply IH.
Qed.

Lemma hex_digit_buffered ch d : hex_digit ch = Some d -> buffered_char ch = true.
Proof.
  unfold hex_digit, buffered_char, char_code. cbv zeta.
  pose proof (ascii_code_range ch) as Hn.
  set (n := Z.of_N (N_of_ascii ch)) in *. intros H.
  assert (Hr : 48 <= n <= 102).
  { destruct (Z.leb_spec 48 n), (Z.leb_spec n 57), (Z.leb_spec 65 n),
      (Z.leb_spec n 70), (Z.leb_spec 97 n), (Z.leb_spec n 102);
      simpl in H; try discriminate; lia. }
  assert (n <> 103).
  { intros ->. discriminate H. }
  destruct (Z.ltb_spec n 128); [|lia].
  destruct (Z.eqb_spec n 103); [lia|].
  destruct (Z.eqb_spec n 7); [lia|].
  destruct (Z.eqb_spec n 10); [lia|]. reflexivity.
Qed.

Lemma positional_hex_buffered digits : forall acc v,
  positional_hex acc digits = Some v -> buffered digits = true.
Proof.
  induction digits as [|ch digits IH]; intros acc v H; [reflexivity|].
  cbn [positional_hex] in H. destruct (hex_digit ch) as [d|] eqn:E; [|discriminate].
  cbn [buffered]. rewrite (hex_digit_buffered ch d E). simpl. eapply IH, H.
Qed.

Lemma buffered_app a b : buffered (a ++ b) = buffered a && buffered b.
Proof.
  induction a as [|x a IH]; [reflexivity|].
  rewrite string_app_cons. cbn [buffered]. now rewrite IH, andb_assoc.
Qed.

(** Received characters that are no command characters pile up behind what
    the buffer already holds, and the line terminator judges the whole
    buffer.  So a set-colour line followed by the terminator, arriving
    while the buffer is empty, programs the colour: Held, the strip shows
    the colour, the baseline is taken afresh, the buffer is empty again
    and nothing is printed. *)
Theorem serialEvent_receives_command cfg (s : state) (b : string) (c : RgbColor)
    (m : option Z) :
  set_color_line b c m ->
  buffered b = true
  /\ serialEvent cfg (b ++ String newline EmptyString) s
     = serialEvent_char cfg newline (set_cmdbuf (cmdbuf s ++ b) s)
  /\ (cmdbuf s = EmptyString ->
      Held (serialEvent cfg (b ++ String newline EmptyString) s)
      /\ rgbstrp_get (serialEvent cfg (b ++ String newline EmptyString) s) = c
      /\ mainstrp_bright (serialEvent cfg (b ++ String newline EmptyString) s)
         = match m with
           | Some w => if NO_MAIN_STRIP cfg then mainstrp_bright s else w
           | None => mainstrp_bright s
           end
      /\ avg (serialEvent cfg (b ++ String newline EmptyString) s)
         = baseline_at cfg (adc s) (u16 (POT_MOV_DET_AVG_SAMPLES cfg)) (clock s)
      /\ cmdbuf (serialEvent cfg (b ++ String newline EmptyString) s) = EmptyString
      /\ serial (serialEvent cfg (b ++ String newline EmptyString) s) = serial s).
Proof.
  intros (digits & v & Hd & Hv & -> & Hshape).
  assert (Hbuf : buffered b = true).
  { destruct Hshape as [[-> _]|(mm & w & Hm & Hw & -> & _)].
    - cbn [buffered]. rewrite (positional_hex_buffered digits 0 v Hv). reflexivity.
    - cbn [buffered]. rewrite buffered_app.
      rewrite (positional_hex_buffered digits 0 v Hv).
      rewrite (positional_hex_buffered mm 0 w Hw). reflexivity. }
  assert (Hrun : serialEvent cfg (b ++ String newline EmptyString) s
                 = serialEvent_char cfg newline (set_cmdbuf (cmdbuf s ++ b) s)).
  { rewrite serialEvent_app, (serialEvent_buffers cfg b s Hbuf). reflexivity. }
  split; [exact Hbuf|]. split; [exact Hrun|].
  intros He. rewrite Hrun, He.
  destruct Hshape as [[-> ->]|(mm & w & Hm & Hw & -> & ->)].
  - rewrite (serialEvent_char_set_rgb cfg
               (set_cmdbuf (EmptyString ++ String "#" digits) s) digits v
               eq_refl Hd Hv), read_avg_eq.
    repeat split.
  - rewrite (serialEvent_char_set_rgbm cfg
               (set_cmdbuf (EmptyString ++ String "#" (digits ++ mm)) s)
               digits mm v w eq_refl Hd Hm Hv Hw).
    rewrite read_avg_eq. unfold Held, rgbstrp_get.
    cbn [programmed rgbstrp mainstrp_bright avg cmdbuf serial set_cmdbuf
         set_programmed set_avg set_clock].
    rewrite set_main_rgbstrp, set_main_mainstrp_bright, set_main_adc, set_main_clock.
    unfold set_main. destruct (NO_MAIN_STRIP cfg); repeat split.
Qed.

Lemma serialEvent_receives_command_witness :
  set_color_line "#0a0B0c" {| R := 10; G := 11; B := 12 |} None
  /\ Held (serialEvent cfg_main ("#0a0B0c" ++ String newline EmptyString) (power_up 512))
  /\ rgbstrp_get (serialEvent cfg_main ("#0a0B0c" ++ String newline EmptyString) (power_up 512))
     = {| R := 10; G := 11; B := 12 |}.
Proof.
  assert (H : set_color_line "#0a0B0c" {| R := 10; G := 11; B := 12 |} None).
  { exists "0a0B0c"%string, 658188. repeat split. left. split; reflexivity. }
  split; [exact H|].
  destruct (serialEvent_receives_command cfg_main (power_up 512) _ _ _ H)
    as (_ & _ & P).
  destruct (P eq_refl) as (P1 & P2 & _). split; [exact P1|exact P2].
Defined.

(** ** Reading a field through the setters *)

Lemma set_main_eeprom cfg v s : eeprom (set_main cfg v s) = eeprom s.
Proof. unfold set_main. destruct (NO_MAIN_STRIP cfg); reflexivity. Qed.

Lemma set_main_serial cfg v s : serial (set_main cfg v s) = serial s.
Proof. unfold set_main. destruct (NO_MAIN_STRIP cfg); reflexivity. Qed.

Lemma set_main_patch_indicator cfg v s :
  patch_indicator (set_main cfg v s) = patch_indicator s.
Proof. unfold set_main. destruct (NO_MAIN_STRIP cfg); reflexivity. Qed.

Lemma set_main_programmed cfg v s : programmed (set_main cfg v s) = programmed s.
Proof. unfold set_main. destruct (NO_MAIN_STRIP cfg); reflexivity. Qed.

Lemma set_main_avg cfg v s : avg (set_main cfg v s) = avg s.
Proof. unfold set_main. destruct (NO_MAIN_STRIP cfg); reflexivity. Qed.

Ltac fields :=
  repeat (progress
    (cbn [adc clock rgbstrp main_strip eeprom serial patch_indicator
          mainstrp_bright rgbmpots avg patches current_patch programmed cmdbuf
          set_clock rgbstrp_set analogWrite_MAIN_STRIP set_eeprom Serial_println
          indicator set_mainstrp_bright set_rgbmpots set_avg set_patches
          set_current_patch set_programmed set_cmdbuf];
     rewrite ?set_main_rgbstrp, ?set_main_mainstrp_bright, ?set_main_main_strip,
       ?set_main_patches, ?set_main_current_patch, ?set_main_adc,
       ?set_main_clock, ?set_main_eeprom, ?set_main_serial,
       ?set_main_patch_indicator, ?set_main_programmed, ?set_main_avg)).

(** ** Live passes *)

(** Live, encoder at rest: every pass copies the reading to the strip (and
    to the main brightness unless [NO_MAIN_STRIP]) and stays Live; the
    baseline is neither consulted nor changed. *)
Theorem loop_live_follows_pots cfg (b : bool) (s : state) :
  Live s ->
  Live (loop cfg PatchEncoder.none b s)
  /\ rgbstrp_get (loop cfg PatchEncoder.none b s) = rgb (fst (rgbm_pots_read cfg s))
  /\ mainstrp_bright (loop cfg PatchEncoder.none b s)
     = (if NO_MAIN_STRIP cfg then mainstrp_bright s
        else M (fst (rgbm_pots_read cfg s)))
  /\ main_strip (loop cfg PatchEncoder.none b s)
     = (if NO_MAIN_STRIP cfg then main_strip s
        else M (fst (rgbm_pots_read cfg s)))
  /\ rgbmpots (loop cfg PatchEncoder.none b s) = fst (rgbm_pots_read cfg s)
  /\ avg (loop cfg PatchEncoder.none b s) = avg s.
Proof.
  unfold Live. intros Hp. rewrite rgbm_pots_read_eq. cbn [fst].
  unfold loop, loop_encoder. rewrite loop_pots_eq, Hp. simpl negb. cbv iota.
  rewrite orb_true_l.
  destruct b; unfold rgbstrp_get;
    cbn [programmed rgbstrp mainstrp_bright main_strip rgbmpots avg indicator
         set_programmed];
    rewrite set_main_rgbstrp, set_main_mainstrp_bright, set_main_main_strip;
    (unfold set_main; destruct (NO_MAIN_STRIP cfg); repeat split).
Qed.

Lemma loop_live_follows_pots_witness :
  Live (power_up 400)
  /\ rgbstrp_get (loop cfg_main PatchEncoder.none false (power_up 400))
     = {| R := 100; G := 100; B := 100 |}.
Proof.
  assert (H : Live (power_up 400)) by reflexivity.
  split; [exact H|].
  destruct (loop_live_follows_pots cfg_main false (power_up 400) H) as (_ & P & _).
  rewrite P. reflexivity.
Defined.

(** ** Selecting a patch *)

Lemma select_patch_fields cfg k s :
  programmed (select_patch cfg k s) = true
  /\ rgbstrp (select_patch cfg k s) = rgb (patches_at (patches s) k)
  /\ mainstrp_bright (select_patch cfg k s)
     = (if NO_MAIN_STRIP cfg then mainstrp_bright s else M (patches_at (patches s) k))
  /\ main_strip (select_patch cfg k s)
     = (if NO_MAIN_STRIP cfg then main_strip s else M (patches_at (patches s) k))
  /\ avg (select_patch cfg k s)
     = baseline_at cfg (adc s) (u16 (POT_MOV_DET_AVG_SAMPLES cfg)) (clock s)
  /\ patches (select_patch cfg k s) = patches s
  /\ current_patch (select_patch cfg k s) = k
  /\ eeprom (select_patch cfg k s) = eeprom s
  /\ patch_indicator (select_patch cfg k s)
     = patch_indicator s ++ [ind_set k; ind_show (PATCH_DISPLAY_TIME cfg)].
Proof.
  unfold select_patch. rewrite read_avg_eq.
  fields. rewrite <- app_assoc. repeat split.
Qed.

Lemma change_patch_up_select cfg s :
  0 <= current_patch s < 9 ->
  change_patch cfg true s = select_patch cfg (current_patch s + 1) s.
Proof.
  intros H. rewrite change_patch_up by lia. rewrite u8_small by lia. reflexivity.
Qed.

Lemma change_patch_down_select cfg s :
  0 < current_patch s <= 9 ->
  change_patch cfg false s = select_patch cfg (current_patch s - 1) s.
Proof.
  intros H. rewrite change_patch_down by lia. rewrite u8_small by lia. reflexivity.
Qed.

(** A valid navigation shows the patch stored at the new cursor (its main
    brightness unless [NO_MAIN_STRIP]), makes the controller Held with a
    baseline taken afresh, tells the indicator the new digit and asks it
    to show; the patches themselves and the EEPROM are not written. *)
Theorem change_patch_selects cfg (up : bool) (s : state) :
  0 <= current_patch s <= 9 ->
  (if up then current_patch s < 9 else 0 < current_patch s) ->
  Held (change_patch cfg up s)
  /\ rgbstrp_get (change_patch cfg up s)
     = rgb (patches_at (patches s) (current_patch (change_patch cfg up s)))
  /\ mainstrp_bright (change_patch cfg up s)
     = (if NO_MAIN_STRIP cfg then mainstrp_bright s
        else M (patches_at (patches s) (current_patch (change_patch cfg up s))))
  /\ avg (change_patch cfg up s)
     = baseline_at cfg (adc s) (u16 (POT_MOV_DET_AVG_SAMPLES cfg)) (clock s)
  /\ patches (change_patch cfg up s) = patches s
  /\ eeprom (change_patch cfg up s) = eeprom s
  /\ patch_indicator (change_patch cfg up s)
     = patch_indicator s ++ [ind_set (current_patch (change_patch cfg up s));
                             ind_show (PATCH_DISPLAY_TIME cfg)].
Proof.
  intros Hc Hv. destruct up.
  - rewrite change_patch_up_select by lia.
    destruct (select_patch_fields cfg (current_patch s + 1) s)
      as (F1 & F2 & F3 & _ & F5 & F6 & F7 & F8 & F9).
    unfold Held, rgbstrp_get. rewrite F1, F2, F3, F5, F6, F7, F8, F9.
    repeat split.
  - rewrite change_patch_down_select by lia.
    destruct (select_patch_fields cfg (current_patch s - 1) s)
      as (F1 & F2 & F3 & _ & F5 & F6 & F7 & F8 & F9).
    unfold Held, rgbstrp_get. rewrite F1, F2, F3, F5, F6, F7, F8, F9.
    repeat split.
Qed.

Lemma change_patch_selects_witness :
  Held (change_patch cfg_main true
          (set_patches [black; {| rgb := {| R := 1; G := 2; B := 3 |}; M := 4 |}]
             (power_up 512)))
  /\ rgbstrp_get (change_patch cfg_main true
          (set_patches [black; {| rgb := {| R := 1; G := 2; B := 3 |}; M := 4 |}]
             (power_up 512)))
     = {| R := 1; G := 2; B := 3 |}.
Proof.
  destruct (change_patch_selects cfg_main true
              (set_patches [black; {| rgb := {| R := 1; G := 2; B := 3 |}; M := 4 |}]
                 (power_up 512))) as (P1 & P2 & _).
  { simpl. lia. }
  { simpl. lia. }
  split; [exact P1|]. rewrite P2. reflexivity.
Defined.

(** ** Start-up *)

Lemma patches_at_EEPROM addr e k :
  0 <= k <= 9 ->
  patches_at (EEPROM_get_patches addr e) k = EEPROM_get (addr + sizeof_rgbm * k) e.
Proof.
  intros H. unfold patches_at.
  rewrite EEPROM_get_patches_lookup by lia. rewrite Z2Nat.id by lia. reflexivity.
Qed.

Lemma setup_fields cfg (s : state) :
  Held (setup cfg s)
  /\ current_patch (setup cfg s) = 0
  /\ patches (setup cfg s) = EEPROM_get_patches (EEPROM_PATCH_ADDR cfg) (eeprom s)
  /\ length (patches (setup cfg s)) = 10%nat
  /\ rgbstrp_get (setup cfg s) = rgb (EEPROM_get (EEPROM_PATCH_ADDR cfg) (eeprom s))
  /\ mainstrp_bright (setup cfg s)
     = (if NO_MAIN_STRIP cfg then mainstrp_bright s
        else M (EEPROM_get (EEPROM_PATCH_ADDR cfg) (eeprom s)))
  /\ avg (setup cfg s)
     = baseline_at cfg (adc s) (u16 (POT_MOV_DET_AVG_SAMPLES cfg)) (clock s)
  /\ eeprom (setup cfg s) = eeprom s
  /\ length (serial (setup cfg s)) = (length (serial s) + 5)%nat
  /\ patch_indicator (setup cfg s)
     = patch_indicator s ++ [ind_set 0; ind_show (PATCH_DISPLAY_TIME cfg)].
Proof.
  unfold setup. cbv zeta. rewrite read_avg_eq.
  unfold Held, rgbstrp_get. fields.
  rewrite patches_at_EEPROM by lia.
  rewrite Z.mul_0_r, Z.add_0_r, <- !app_assoc.
  repeat split. rewrite !List.length_app. simpl. lia.
Qed.


(** [setup] loads the ten slots from the EEPROM without looking at their
    contents, puts the cursor on slot 0, shows slot 0 (its main brightness
    unless [NO_MAIN_STRIP]), takes the baseline and leaves the controller
    Held; it prints the five boot lines and writes nothing to the EEPROM. *)
Theorem setup_boots_held cfg (s : state) :
  Held (setup cfg s)
  /\ current_patch (setup cfg s) = 0
  /\ patches (setup cfg s) = EEPROM_get_patches (EEPROM_PATCH_ADDR cfg) (eeprom s)
  /\ length (patches (setup cfg s)) = 10%nat
  /\ rgbstrp_get (setup cfg s) = rgb (EEPROM_get (EEPROM_PATCH_ADDR cfg) (eeprom s))
  /\ mainstrp_bright (setup cfg s)
     = (if NO_MAIN_STRIP cfg then mainstrp_bright s
        else M (EEPROM_get (EEPROM_PATCH_ADDR cfg) (eeprom s)))
  /\ avg (setup cfg s)
     = baseline_at cfg (adc s) (u16 (POT_MOV_DET_AVG_SAMPLES cfg)) (clock s)
  /\ eeprom (setup cfg s) = eeprom s
  /\ length (serial (setup cfg s)) = (length (serial s) + 5)%nat
  /\ patch_indicator (setup cfg s)
     = patch_indicator s ++ [ind_set 0; ind_show (PATCH_DISPLAY_TIME cfg)].
Proof. apply setup_fields. Qed.

Lemma setup_boots_held_witness :
  output (setup cfg_main (power_up 512))
  = {| rgb := {| R := 255; G := 255; B := 255 |}; M := 255 |}.
Proof.
  destruct (setup_boots_held cfg_main (power_up 512))
    as (_ & _ & _ & _ & P1 & P2 & _).
  unfold output. rewrite P1, P2. reflexivity.
Defined.

(** ** Saving and recalling *)

Lemma save_patch_fields cfg s :
  rgbstrp (save_patch cfg s) = rgbstrp s
  /\ mainstrp_bright (save_patch cfg s) = mainstrp_bright s
  /\ current_patch (save_patch cfg s) = current_patch s
  /\ patches (save_patch cfg s)
     = <[Z.to_nat (current_patch s) := output s]> (patches s).
Proof. unfold save_patch. repeat split. Qed.

(** A colour saved in a slot comes back: after moving one patch away and
    back again the output is what it was when it was saved (main
    brightness included, which [NO_MAIN_STRIP] never moves), and the
    cursor is on the same slot. *)
Theorem save_patch_then_return cfg (up : bool) (s : state) :
  bank_ok s ->
  (if up then current_patch s < 9 else 0 < current_patch s) ->
  output (change_patch cfg (negb up) (change_patch cfg up (save_patch cfg s)))
  = output s
  /\ current_patch (change_patch cfg (negb up) (change_patch cfg up (save_patch cfg s)))
     = current_patch s
  /\ Held (change_patch cfg (negb up) (change_patch cfg up (save_patch cfg s))).
Proof.
  intros [Hl Hc] Hv.
  destruct (save_patch_fields cfg s) as (S1 & S2 & S3 & S4).
  assert (Hat : patches_at (patches (save_patch cfg s)) (current_patch s) = output s).
  { rewrite S4. unfold patches_at.
    rewrite list_lookup_insert_eq by lia. reflexivity. }
  destruct up; cbn [negb].
  - rewrite (change_patch_up_select cfg (save_patch cfg s)) by (rewrite S3; lia).
    destruct (select_patch_fields cfg (current_patch (save_patch cfg s) + 1)
                (save_patch cfg s)) as (_ & _ & A3 & _ & _ & A6 & A7 & _).
    rewrite change_patch_down_select by (rewrite A7, S3; lia).
    match goal with
    | |- context [select_patch cfg ?k ?t] =>
        destruct (select_patch_fields cfg k t) as (B1 & B2 & B3 & _ & _ & _ & B7 & _)
    end.
    unfold output, Held, rgbstrp_get. rewrite B1, B2, B3, B7, A6, A7, A3, S2, S3.
    replace (current_patch s + 1 - 1) with (current_patch s) by lia.
    rewrite Hat. unfold output, rgbstrp_get. cbn [rgb M].
    destruct (NO_MAIN_STRIP cfg); repeat split.
  - rewrite (change_patch_down_select cfg (save_patch cfg s)) by (rewrite S3; lia).
    destruct (select_patch_fields cfg (current_patch (save_patch cfg s) - 1)
                (save_patch cfg s)) as (_ & _ & A3 & _ & _ & A6 & A7 & _).
    rewrite change_patch_up_select by (rewrite A7, S3; lia).
    match goal with
    | |- context [select_patch cfg ?k ?t] =>
        destruct (select_patch_fields cfg k t) as (B1 & B2 & B3 & _ & _ & _ & B7 & _)
    end.
    unfold output, Held, rgbstrp_get. rewrite B1, B2, B3, B7, A6, A7, A3, S2, S3.
    replace (current_patch s - 1 + 1) with (current_patch s) by lia.
    rewrite Hat. unfold output, rgbstrp_get. cbn [rgb M].
    destruct (NO_MAIN_STRIP cfg); repeat split.
Qed.

Lemma save_patch_then_return_witness :
  bank_ok (rgbstrp_set {| R := 9; G := 8; B := 7 |} (power_up 512))
  /\ output (change_patch cfg_main false (change_patch cfg_main true
               (save_patch cfg_main
                  (rgbstrp_set {| R := 9; G := 8; B := 7 |} (power_up 512)))))
     = {| rgb := {| R := 9; G := 8; B := 7 |}; M := 0 |}.
Proof.
  assert (H : bank_ok (rgbstrp_set {| R := 9; G := 8; B := 7 |} (power_up 512))).
  { split; [reflexivity|simpl; lia]. }
  split; [exact H|].
  destruct (save_patch_then_return cfg_main true _ H) as (P & _).
  { simpl. lia. }
  cbn [negb] in P. rewrite P. reflexivity.
Defined.

Lemma EEPROM_get_put_other addr addr' v e :
  addr' + 3 < addr \/ addr + 3 < addr' ->
  EEPROM_get addr' (EEPROM_put addr v e) = EEPROM_get addr' e.
Proof.
  intros H. unfold EEPROM_get, EEPROM_put, EEPROM_read.
  rewrite !lookup_insert_ne by lia. reflexivity.
Qed.

(** What [save_patch] writes to the EEPROM is what the next start-up finds
    in the same slot, and the other nine slots of the EEPROM are as they
    were (slot addresses taken as they are computed, without wrap-around);
    a patch saved in slot 0 is the colour the firmware starts with. *)
Theorem save_patch_survives_restart cfg (s after : state) :
  bank_ok s ->
  eeprom after = eeprom (save_patch cfg s) ->
  patches (setup cfg after) !! Z.to_nat (current_patch s) = Some (output s)
  /\ (forall k, 0 <= k <= 9 -> k <> current_patch s ->
        EEPROM_get (slot_addr cfg k) (eeprom (save_patch cfg s))
        = EEPROM_get (slot_addr cfg k) (eeprom s))
  /\ (forall k, 0 <= k <= 9 -> k <> current_patch s ->
        patches (setup cfg after) !! Z.to_nat k
        = Some (EEPROM_get (slot_addr cfg k) (eeprom s)))
  /\ (current_patch s = 0 -> rgbstrp_get (setup cfg after) = rgbstrp_get s).
Proof.
  intros [Hl Hc] He.
  assert (Hat : patches_at (<[Z.to_nat (current_patch s) := output s]> (patches s))
                  (current_patch s) = output s).
  { unfold patches_at. rewrite list_lookup_insert_eq by lia. reflexivity. }
  assert (Hee : eeprom (save_patch cfg s)
                = EEPROM_put (slot_addr cfg (current_patch s)) (output s) (eeprom s)).
  { unfold save_patch. cbv zeta. fields.
    change {| rgb := rgbstrp_get s; M := mainstrp_bright s |} with (output s).
    rewrite Hat. reflexivity. }
  destruct (setup_fields cfg after) as (_ & _ & P3 & _ & P5 & _).
  rewrite P3, P5, He, Hee. clear P3 P5.
  assert (Hother : forall k, 0 <= k <= 9 -> k <> current_patch s ->
            EEPROM_get (slot_addr cfg k)
              (EEPROM_put (slot_addr cfg (current_patch s)) (output s) (eeprom s))
            = EEPROM_get (slot_addr cfg k) (eeprom s)).
  { intros k Hk Hne. apply EEPROM_get_put_other.
    unfold slot_addr, sizeof_rgbm. lia. }
  split; [|split; [|split]].
  - rewrite EEPROM_get_patches_lookup by lia. rewrite Z2Nat.id by lia.
    f_equal. apply EEPROM_get_put.
  - exact Hother.
  - intros k Hk Hne. rewrite EEPROM_get_patches_lookup by lia.
    rewrite Z2Nat.id by lia. f_equal. apply Hother; assumption.
  - intros H0. rewrite H0. unfold slot_addr.
    rewrite Z.mul_0_r, Z.add_0_r, EEPROM_get_put. reflexivity.
Qed.

Lemma save_patch_survives_restart_witness :
  rgbstrp_get (setup cfg_main
                 (set_eeprom (eeprom (save_patch cfg_main
                                        (rgbstrp_set {| R := 9; G := 8; B := 7 |}
                                           (power_up 512))))
                    (power_up 300)))
  = {| R := 9; G := 8; B := 7 |}.
Proof.
  assert (H : bank_ok (rgbstrp_set {| R := 9; G := 8; B := 7 |} (power_up 512))).
  { split; [reflexivity|simpl; lia]. }
  destruct (save_patch_survives_restart cfg_main _
              (set_eeprom (eeprom (save_patch cfg_main
                                     (rgbstrp_set {| R := 9; G := 8; B := 7 |}
                                        (power_up 512))))
                 (power_up 300)) H eq_refl) as (_ & _ & _ & P).
  rewrite P; reflexivity.
Defined.

(** ** The baseline *)

Lemma avg_pot_read_floor_witness :
  fst (avg_pot_read cfg_main (R_POT cfg_main) 4 (replay [10; 11; 12; 14])) = 2.
Proof.
  destruct (avg_pot_read_floor cfg_main (R_POT cfg_main) 4 (replay [10; 11; 12; 14]))
    as [P _].
  { lia. }
  { intros k. simpl. do 5 (destruct k as [|k]; [lia|]). destruct k; lia. }
  rewrite P. reflexivity.
Defined.

Lemma serialEvent_char_avg cfg ch s :
  rgbm_u8 (avg s) -> rgbm_u8 (avg (serialEvent_char cfg ch s)).
Proof.
  intros H. unfold serialEvent_char. cbv zeta.
  destruct (char_code ch =? 103); [exact H|].
  destruct (char_code ch =? 7); [exact H|].
  destruct (char_code ch =? 10); [|exact H].
  destruct (_ =? RGB_HEX_STR_LEN).
  - destruct (hexstr_to_rgb (cmdbuf s)); [|exact H].
    rewrite read_avg_eq. apply baseline_at_u8.
  - destruct (_ =? RGBM_HEX_STR_LEN); [|exact H].
    destruct (hexstr_to_rgbm (cmdbuf s) unassigned) as [[] v]; [|exact H].
    rewrite read_avg_eq. apply baseline_at_u8.
Qed.

Lemma serialEvent_avg cfg rx : forall s,
  rgbm_u8 (avg s) -> rgbm_u8 (avg (serialEvent cfg rx s)).
Proof.
  induction rx as [|ch rx IH]; intros s H; [exact H|].
  cbn [serialEvent]. apply IH, serialEvent_char_avg, H.
Qed.

Lemma change_patch_avg cfg up s :
  rgbm_u8 (avg s) -> rgbm_u8 (avg (change_patch cfg up s)).
Proof.
  intros H. unfold change_patch.
  destruct (up && (current_patch s <? 9)).
  { cbv beta iota zeta. simpl negb. cbv iota. rewrite read_avg_eq. apply baseline_at_u8. }
  destruct (negb up && (0 <? current_patch s)).
  { cbv beta iota zeta. simpl negb. cbv iota. rewrite read_avg_eq. apply baseline_at_u8. }
  exact H.
Qed.

Lemma loop_avg cfg a b s :
  rgbm_u8 (avg s) -> rgbm_u8 (avg (loop cfg a b s)).
Proof.
  intros H.
  assert (H1 : rgbm_u8 (avg (loop_pots cfg s))).
  { rewrite loop_pots_eq. destruct (negb (programmed s) || _); fields; exact H. }
  unfold loop. revert H1. generalize (loop_pots cfg s). intros t H1.
  assert (H2 : rgbm_u8 (avg (loop_encoder cfg a t))).
  { destruct a; cbn [loop_encoder];
      [exact H1 | exact H1 | now apply change_patch_avg | now apply change_patch_avg]. }
  destruct b; exact H2.
Qed.

(** From start-up on the baseline is a colour of four 8-bit channels,
    whatever the converter returns and whatever arrives over serial. *)
Theorem firmware_avg_u8 cfg (ins : list pass_input) (s : state) :
  rgbm_u8 (avg (firmware cfg ins s)).
Proof.
  unfold firmware.
  assert (H : rgbm_u8 (avg (setup cfg s))).
  { unfold setup. cbv zeta. rewrite read_avg_eq. apply baseline_at_u8. }
  revert H. generalize (setup cfg s).
  induction ins as [|i ins IH]; intros t Ht; [exact Ht|].
  cbn [passes]. apply IH. unfold pass. apply serialEvent_avg, loop_avg, Ht.
Qed.

(** ** The reading *)

(** Whatever the converter returns, every channel of a reading is an 8-bit
    value, and a channel with a lower bound above 0 is either 0 or above
    that bound; reading the potentiometers takes four conversions and
    changes nothing else. *)
Theorem rgbm_pots_read_dead_band cfg (s : state) :
  rgbm_u8 (fst (rgbm_pots_read cfg s))
  /\ (0 < R_POT_LOWER_BOUND cfg ->
      R (rgb (fst (rgbm_pots_read cfg s))) = 0
      \/ R_POT_LOWER_BOUND cfg < R (rgb (fst (rgbm_pots_read cfg s))))
  /\ (0 < G_POT_LOWER_BOUND cfg ->
      G (rgb (fst (rgbm_pots_read cfg s))) = 0
      \/ G_POT_LOWER_BOUND cfg < G (rgb (fst (rgbm_pots_read cfg s))))
  /\ (0 < B_POT_LOWER_BOUND cfg ->
      B (rgb (fst (rgbm_pots_read cfg s))) = 0
      \/ B_POT_LOWER_BOUND cfg < B (rgb (fst (rgbm_pots_read cfg s))))
  /\ (0 < M_POT_LOWER_BOUND cfg ->
      M (fst (rgbm_pots_read cfg s)) = 0
      \/ M_POT_LOWER_BOUND cfg < M (fst (rgbm_pots_read cfg s)))
  /\ snd (rgbm_pots_read cfg s) = set_clock (clock s + 4) s.
Proof.
  rewrite rgbm_pots_read_eq. cbn [fst snd].
  assert (D : forall lb v, 0 < lb -> lower_bound lb v = 0 \/ lb < lower_bound lb v).
  { intros lb v Hlb. unfold lower_bound.
    destruct (Z.ltb_spec 0 lb); [|lia].
    destruct (Z.leb_spec v lb); simpl; [left; reflexivity|right; assumption]. }
  split; [apply pots_at_u8|].
  unfold pots_at. cbn [rgb R G B M]. repeat split; intros H; apply D, H.
Qed.

Lemma rgbm_pots_read_dead_band_witness :
  0 < 10
  /\ fst (rgbm_pots_read
            {| NO_MAIN_STRIP := false; POTS_INVERTED := true;
               R_POT := 14; G_POT := 15; B_POT := 16; M_POT := 17;
               R_POT_LOWER_BOUND := 10; G_POT_LOWER_BOUND := 0;
               B_POT_LOWER_BOUND := 0; M_POT_LOWER_BOUND := 0;
               POT_MOV_DET_AVG_SAMPLES := 3; POT_MOV_DET_MAX_DEV := 5;
               EEPROM_PATCH_ADDR := 0; PATCH_DISPLAY_TIME := 1000;
               NUM_SAVE_BLINKS := 3; BLINK_INTERVAL_ON := 100;
               BLINK_INTERVAL_OFF := 100;
               BOOT_MSG_ASCII_ART := ""; BOOT_MSG_AUTHORS := "";
               BOOT_MSG_LICENSE := ""; BOOT_MSG_SRC := ""; BUILD_DATE := "";
               authors_credit := fun c => c |} (power_up 1000))
     = {| rgb := {| R := 0; G := 5; B := 5 |}; M := 5 |}.
Proof.
  split; [lia|].
  match goal with
  | |- fst (rgbm_pots_read ?c ?s) = _ =>
      pose proof (rgbm_pots_read_dead_band c s) as (_ & P & _)
  end.
  destruct (P ltac:(simpl; lia)) as [E|E]; reflexivity.
Defined.

(** ** Potentiometers at rest *)

Lemma still_sample cfg raw s pin k :
  still raw s -> 0 <= raw pin <= 1023 ->
  sample_at cfg (adc s) pin k
  = (if POTS_INVERTED cfg then ANALOG_READ_MAX - raw pin else raw pin)
  /\ 0 <= sample_at cfg (adc s) pin k <= 1023.
Proof.
  intros Hs Hr. unfold sample_at, ANALOG_READ_MAX. rewrite (Hs pin k).
  destruct (POTS_INVERTED cfg); [rewrite i16_small by lia|]; lia.
Qed.

Lemma sum_at_const cfg f pin c n : forall t,
  (forall k, sample_at cfg f pin k = c) ->
  sum_at cfg f pin n t = Z.of_nat n * c.
Proof.
  induction n as [|n IH]; intros t H; [reflexivity|].
  cbn [sum_at]. rewrite H, IH by exact H. lia.
Qed.

(** The average of a potentiometer at rest is its value. *)
Lemma still_avg_at cfg raw s pin n t :
  still raw s -> 0 <= raw pin <= 1023 -> 1 <= n <= 65535 ->
  avg_at cfg (adc s) pin n t = pot_value cfg raw pin.
Proof.
  intros Hs Hr Hn. unfold avg_at, c_round, pot_value.
  assert (Hf : forall k, 0 <= adc s pin k <= 1023) by (intros k; rewrite Hs; exact Hr).
  destruct (acc_at_exact cfg (adc s) pin (Z.to_nat n) t 0 Hf) as [E _];
    [lia | rewrite Z2Nat.id by lia; lia |].
  rewrite E, Z.add_0_l.
  rewrite (sum_at_const cfg (adc s) pin
             (if POTS_INVERTED cfg then ANALOG_READ_MAX - raw pin else raw pin))
    by (intros k; apply (still_sample cfg raw s pin k Hs Hr)).
  rewrite Z2Nat.id by lia. rewrite Z.mul_comm, Z.div_mul by lia.
  rewrite u16_small; [reflexivity|].
  unfold ANALOG_READ_MAX. destruct (POTS_INVERTED cfg); lia.
Qed.

Lemma still_baseline cfg raw s n t :
  still raw s -> (forall pin, 0 <= raw pin <= 1023) -> 1 <= n <= 65535 ->
  baseline_at cfg (adc s) n t
  = {| rgb := {| R := pot_value cfg raw (R_POT cfg);
                 G := pot_value cfg raw (G_POT cfg);
                 B := pot_value cfg raw (B_POT cfg) |};
       M := pot_value cfg raw (M_POT cfg) |}.
Proof.
  intros Hs Hr Hn. unfold baseline_at.
  rewrite !(still_avg_at cfg raw s) by auto. reflexivity.
Qed.

Lemma still_pots cfg raw s t :
  still raw s -> (forall pin, 0 <= raw pin <= 1023) ->
  pots_at cfg (adc s) t
  = {| rgb := {| R := lower_bound (R_POT_LOWER_BOUND cfg) (pot_value cfg raw (R_POT cfg));
                 G := lower_bound (G_POT_LOWER_BOUND cfg) (pot_value cfg raw (G_POT cfg));
                 B := lower_bound (B_POT_LOWER_BOUND cfg) (pot_value cfg raw (B_POT cfg)) |};
       M := lower_bound (M_POT_LOWER_BOUND cfg) (pot_value cfg raw (M_POT cfg)) |}.
Proof.
  intros Hs Hr. unfold pots_at, pot_value.
  assert (E : forall pin k,
            u16 (sample_at cfg (adc s) pin k)
            = (if POTS_INVERTED cfg then ANALOG_READ_MAX - raw pin else raw pin)).
  { intros pin k. destruct (still_sample cfg raw s pin k Hs (Hr pin)) as [E1 E2].
    rewrite u16_small by lia. exact E1. }
  rewrite !E. reflexivity.
Qed.

Lemma lower_bound_close lb v d :
  0 <= v -> lb <= d -> 0 <= d -> Z.abs (lower_bound lb v - v) <= d.
Proof.
  intros Hv Hlb Hd. unfold lower_bound.
  destruct (Z.ltb_spec 0 lb); destruct (Z.leb_spec v lb); simpl; lia.
Qed.

Lemma pot_value_u8 cfg raw pin : is_u8 (pot_value cfg raw pin).
Proof. apply adc_to_rgb_range. Qed.

(** A pass, encoder at rest, in which no movement is detected. *)
Lemma loop_not_moved cfg b s :
  Held s ->
  rgbm_pot_mov_det cfg (pots_at cfg (adc s) (clock s)) (avg s) (threshold cfg) = false ->
  Held (loop cfg PatchEncoder.none b s)
  /\ output (loop cfg PatchEncoder.none b s) = output s
  /\ avg (loop cfg PatchEncoder.none b s) = avg s
  /\ adc (loop cfg PatchEncoder.none b s) = adc s.
Proof.
  unfold Held. intros Hp Hm. unfold loop, loop_encoder.
  rewrite loop_pots_eq, Hp, Hm. change (negb true || false) with false. cbv iota.
  destruct b; repeat split; assumption.
Qed.

(** Once a colour has been adopted with the baseline taken as the firmware
    takes it, potentiometers that do not move never end the hold, however
    many passes go by, provided no lower bound is above the deviation
    threshold: the controller stays Held and the output stays as it is. *)
Theorem still_pots_stay_held cfg (raw : Z -> Z) (busy : list bool) (s : state) (t0 : nat) :
  still raw s ->
  (forall pin, 0 <= raw pin <= 1023) ->
  1 <= u16 (POT_MOV_DET_AVG_SAMPLES cfg) ->
  R_POT_LOWER_BOUND cfg <= threshold cfg ->
  G_POT_LOWER_BOUND cfg <= threshold cfg ->
  B_POT_LOWER_BOUND cfg <= threshold cfg ->
  M_POT_LOWER_BOUND cfg <= threshold cfg ->
  Held s ->
  avg s = baseline_at cfg (adc s) (u16 (POT_MOV_DET_AVG_SAMPLES cfg)) t0 ->
  Held (idle_loops cfg busy s)
  /\ output (idle_loops cfg busy s) = output s
  /\ avg (idle_loops cfg busy s) = avg s.
Proof.
  intros Hs Hr Hn HR HG HB HM Hp Ha.
  assert (Hn' : 1 <= u16 (POT_MOV_DET_AVG_SAMPLES cfg) <= 65535).
  { split; [exact Hn|]. unfold u16.
    pose proof (Z.mod_pos_bound (POT_MOV_DET_AVG_SAMPLES cfg) (2 ^ 16) ltac:(lia)).
    change (2 ^ 16) with 65536 in *. lia. }
  rewrite (still_baseline cfg raw s _ t0 Hs Hr Hn') in Ha. clear Hn Hn' t0.
  revert s Hs Hp Ha. induction busy as [|b busy IH]; intros s Hs Hp Ha.
  - repeat split. exact Hp.
  - cbn [idle_loops].
    destruct (loop_not_moved cfg b s Hp) as (Q1 & Q2 & Q3 & Q4).
    { apply not_true_is_false. intros Hmov.
      apply rgbm_pot_mov_det_deviates in Hmov; [|apply pots_at_u8|].
      - rewrite (still_pots cfg raw s _ Hs Hr), Ha in Hmov.
        unfold deviates in Hmov. cbn [rgb R G B M] in Hmov.
        pose proof (threshold_nonneg cfg) as Ht.
        pose proof (pot_value_u8 cfg raw (R_POT cfg)) as [? _].
        pose proof (pot_value_u8 cfg raw (G_POT cfg)) as [? _].
        pose proof (pot_value_u8 cfg raw (B_POT cfg)) as [? _].
        pose proof (pot_value_u8 cfg raw (M_POT cfg)) as [? _].
        pose proof (lower_bound_close (R_POT_LOWER_BOUND cfg)
                      (pot_value cfg raw (R_POT cfg)) (threshold cfg)).
        pose proof (lower_bound_close (G_POT_LOWER_BOUND cfg)
                      (pot_value cfg raw (G_POT cfg)) (threshold cfg)).
        pose proof (lower_bound_close (B_POT_LOWER_BOUND cfg)
                      (pot_value cfg raw (B_POT cfg)) (threshold cfg)).
        pose proof (lower_bound_close (M_POT_LOWER_BOUND cfg)
                      (pot_value cfg raw (M_POT cfg)) (threshold cfg)).
        lia.
      - rewrite Ha. unfold rgbm_u8. cbn [rgb R G B M].
        repeat split; apply pot_value_u8. }
    destruct (IH (loop cfg PatchEncoder.none b s)) as (P1 & P2 & P3).
    + intros pin k. rewrite Q4. apply Hs.
    + exact Q1.
    + rewrite Q3. exact Ha.
    + rewrite P2, P3, Q2, Q3. repeat split. exact P1.
Qed.

Lemma still_pots_stay_held_witness :
  Held (idle_loops cfg_main [false; true; false; false]
          (serialEvent cfg_main ("#102030" ++ String newline EmptyString) (power_up 777)))
  /\ output (idle_loops cfg_main [false; true; false; false]
          (serialEvent cfg_main ("#102030" ++ String newline EmptyString) (power_up 777)))
     = {| rgb := {| R := 16; G := 32; B := 48 |}; M := 0 |}.
Proof.
  destruct (still_pots_stay_held cfg_main (fun _ => 777) [false; true; false; false]
              (serialEvent cfg_main ("#102030" ++ String newline EmptyString)
                 (power_up 777)) 0%nat) as (P1 & P2 & _).
  { intros pin k. reflexivity. }
  { intros pin. lia. }
  { vm_compute. discriminate. }
  { vm_compute. discriminate. }
  { vm_compute. discriminate. }
  { vm_compute. discriminate. }
  { vm_compute. discriminate. }
  { reflexivity. }
  { reflexivity. }
  split; [exact P1|]. rewrite P2. reflexivity.
Defined.

(** A lower bound above the deviation threshold breaks a hold by itself: a
    red potentiometer at rest at a value above the threshold but not above
    its lower bound reads as 0 while the baseline, taken without the lower
    bound, holds its value, so the next pass detects movement, goes Live
    and puts the red channel to 0. *)
Theorem lower_bound_above_threshold_ends_hold cfg (raw : Z -> Z) (b : bool)
    (s : state) (t0 : nat) :
  still raw s ->
  (forall pin, 0 <= raw pin <= 1023) ->
  1 <= u16 (POT_MOV_DET_AVG_SAMPLES cfg) ->
  Held s ->
  avg s = baseline_at cfg (adc s) (u16 (POT_MOV_DET_AVG_SAMPLES cfg)) t0 ->
  threshold cfg < pot_value cfg raw (R_POT cfg) <= R_POT_LOWER_BOUND cfg ->
  R (rgb (avg s)) = pot_value cfg raw (R_POT cfg)
  /\ R (rgb (fst (rgbm_pots_read cfg s))) = 0
  /\ Live (loop cfg PatchEncoder.none b s)
  /\ R (rgbstrp_get (loop cfg PatchEncoder.none b s)) = 0.
Proof.
  intros Hs Hr Hn Hp Ha Hq.
  assert (Hn' : 1 <= u16 (POT_MOV_DET_AVG_SAMPLES cfg) <= 65535).
  { split; [exact Hn|]. unfold u16.
    pose proof (Z.mod_pos_bound (POT_MOV_DET_AVG_SAMPLES cfg) (2 ^ 16) ltac:(lia)).
    change (2 ^ 16) with 65536 in *. lia. }
  rewrite (still_baseline cfg raw s _ t0 Hs Hr Hn') in Ha.
  pose proof (threshold_nonneg cfg) as Ht.
  assert (E0 : lower_bound (R_POT_LOWER_BOUND cfg) (pot_value cfg raw (R_POT cfg)) = 0).
  { unfold lower_bound. destruct (Z.ltb_spec 0 (R_POT_LOWER_BOUND cfg)); [|lia].
    destruct (Z.leb_spec (pot_value cfg raw (R_POT cfg)) (R_POT_LOWER_BOUND cfg));
      [reflexivity|lia]. }
  assert (ER : R (rgb (fst (rgbm_pots_read cfg s))) = 0).
  { rewrite rgbm_pots_read_eq. cbn [fst].
    rewrite (still_pots cfg raw s _ Hs Hr). exact E0. }
  destruct (loop_deviating cfg b s Hp) as (D1 & D2 & _).
  - rewrite Ha. unfold rgbm_u8. cbn [rgb R G B M]. repeat split; apply pot_value_u8.
  - left. rewrite ER, Ha. cbn [rgb R]. lia.
  - split; [rewrite Ha; reflexivity|]. split; [exact ER|].
    split; [exact D1|]. rewrite D2. exact ER.
Qed.

Lemma lower_bound_above_threshold_ends_hold_witness :
  Held (serialEvent cfg_bounded ("#102030" ++ String newline EmptyString) (power_up 32))
  /\ Live (loop cfg_bounded PatchEncoder.none false
             (serialEvent cfg_bounded ("#102030" ++ String newline EmptyString)
                (power_up 32)))
  /\ R (rgbstrp_get (loop cfg_bounded PatchEncoder.none false
             (serialEvent cfg_bounded ("#102030" ++ String newline EmptyString)
                (power_up 32)))) = 0.
Proof.
  split; [reflexivity|].
  destruct (lower_bound_above_threshold_ends_hold cfg_bounded (fun _ => 32) false
              (serialEvent cfg_bounded ("#102030" ++ String newline EmptyString)
                 (power_up 32)) 0%nat) as (_ & _ & P1 & P2).
  { intros pin k. reflexivity. }
  { intros pin. lia. }
  { vm_compute. discriminate. }
  { reflexivity. }
  { reflexivity. }
  { vm_compute. split; [reflexivity|discriminate]. }
  split; [exact P1|exact P2].
Defined.

(** ** Navigation within a pass *)

(** Turning the encoder wins over the potentiometers of the same pass:
    whatever the arbitration at the head of the pass did, a valid
    navigation leaves the controller Held on the patch at the new cursor. *)
Theorem loop_navigation_overrides_pots cfg (a : PatchEncoder.action) (b : bool)
    (s : state) :
  0 <= current_patch s <= 9 ->
  (a = PatchEncoder.right /\ current_patch s < 9)
  \/ (a = PatchEncoder.left /\ 0 < current_patch s) ->
  Held (loop cfg a b s)
  /\ current_patch (loop cfg a b s)
     = match a with
       | PatchEncoder.right => current_patch s + 1
       | _ => current_patch s - 1
       end
  /\ rgbstrp_get (loop cfg a b s)
     = rgb (patches_at (patches s) (current_patch (loop cfg a b s))).
Proof.
  intros Hc Hv. destruct (loop_pots_bank cfg s) as [Hpat Hcur].
  unfold loop.
  assert (E : forall t : state,
            programmed (if b then indicator ind_update t else t) = programmed t
            /\ current_patch (if b then indicator ind_update t else t) = current_patch t
            /\ rgbstrp (if b then indicator ind_update t else t) = rgbstrp t).
  { intros t. destruct b; repeat split. }
  unfold Held, rgbstrp_get.
  rewrite !(proj1 (E _)), !(proj1 (proj2 (E _))), !(proj2 (proj2 (E _))).
  destruct Hv as [[-> Hlt]|[-> Hgt]]; cbn [loop_encoder].
  - rewrite change_patch_up_select by (rewrite Hcur; lia).
    destruct (select_patch_fields cfg (current_patch (loop_pots cfg s) + 1)
                (loop_pots cfg s)) as (F1 & F2 & _ & _ & _ & _ & F7 & _).
    rewrite F1, F2, F7, Hpat, Hcur. repeat split.
  - rewrite change_patch_down_select by (rewrite Hcur; lia).
    destruct (select_patch_fields cfg (current_patch (loop_pots cfg s) - 1)
                (loop_pots cfg s)) as (F1 & F2 & _ & _ & _ & _ & F7 & _).
    rewrite F1, F2, F7, Hpat, Hcur. repeat split.
Qed.

Lemma loop_navigation_overrides_pots_witness :
  Held (loop cfg_main PatchEncoder.right false
          (set_patches [black; {| rgb := {| R := 1; G := 2; B := 3 |}; M := 4 |}]
             (power_up 512)))
  /\ rgbstrp_get (loop cfg_main PatchEncoder.right false
          (set_patches [black; {| rgb := {| R := 1; G := 2; B := 3 |}; M := 4 |}]
             (power_up 512)))
     = {| R := 1; G := 2; B := 3 |}.
Proof.
  destruct (loop_navigation_overrides_pots cfg_main PatchEncoder.right false
              (set_patches [black; {| rgb := {| R := 1; G := 2; B := 3 |}; M := 4 |}]
                 (power_up 512))) as (P1 & P2 & P3).
  { simpl. lia. }
  { left. split; [reflexivity|simpl; lia]. }
  split; [exact P1|]. rewrite P3, P2. reflexivity.
Defined.

(** ** What the parsers look at *)

Lemma substring_none s : forall n, String.substring n 0 s = EmptyString.
Proof.
  induction s as [|c s IH]; intros [|n]; try reflexivity. apply IH.
Qed.

Lemma substring_prefix a rest : forall l m,
  (l + m <= String.length a)%nat ->
  String.substring l m (a ++ rest) = String.substring l m a.
Proof.
  induction a as [|c a IH]; intros l m H.
  - simpl in H. assert (l = 0%nat) as -> by lia. assert (m = 0%nat) as -> by lia.
    destruct rest; reflexivity.
  - rewrite string_app_cons. cbn [String.length] in H. destruct l as [|l].
    + destruct m as [|m]; [reflexivity|].
      cbn [String.substring]. f_equal. apply IH. lia.
    + cbn [String.substring]. apply IH. lia.
Qed.

Lemma String_substring_prefix l r a rest :
  (l <= r)%nat -> (r <= String.length a)%nat ->
  String_substring l r (a ++ rest) = String_substring l r a.
Proof.
  intros Hlr Hr. unfold String_substring.
  rewrite length_app, Nat.min_l, Nat.max_r by lia.
  destruct (Nat.leb_spec (String.length a + String.length rest) l),
    (Nat.leb_spec (String.length a) l); try lia.
  - reflexivity.
  - assert (l = r) by lia. subst l.
    replace (Nat.min r (String.length a + String.length rest) - r)%nat
      with 0%nat by lia.
    apply substring_none.
  - rewrite !Nat.min_l by lia. apply substring_prefix. lia.
Qed.

Lemma String_at_0_app a rest :
  (1 <= String.length a)%nat -> String_at (a ++ rest) 0 = String_at a 0.
Proof. destruct a; [simpl; lia|reflexivity]. Qed.

(** Both parsers look at a fixed window of the string and at nothing
    behind it: [hexstr_to_rgb] at the first seven characters,
    [hexstr_to_rgbm] at the first nine.  What follows is ignored, not
    rejected; the lengths are checked by [serialEvent] alone. *)
Theorem hex_parsers_ignore_the_rest (line rest : string) (out : rgbm) :
  ((7 <= String.length line)%nat ->
   hexstr_to_rgb (line ++ rest) = hexstr_to_rgb line)
  /\ ((9 <= String.length line)%nat ->
      hexstr_to_rgbm (line ++ rest) out = hexstr_to_rgbm line out).
Proof.
  split; intros H.
  - unfold hexstr_to_rgb. change (Z.to_nat RGB_HEX_STR_LEN) with 7%nat.
    rewrite String_at_0_app by lia.
    rewrite String_substring_prefix by lia. reflexivity.
  - unfold hexstr_to_rgbm. change (Z.to_nat RGB_HEX_STR_LEN) with 7%nat.
    change (Z.to_nat RGBM_HEX_STR_LEN) with 9%nat.
    rewrite String_at_0_app by lia.
    rewrite !String_substring_prefix by lia. reflexivity.
Qed.

Lemma hex_parsers_ignore_the_rest_witness :
  hexstr_to_rgb "#AABBCC and more" = Some {| R := 170; G := 187; B := 204 |}
  /\ hexstr_to_rgbm "#AABBCCDDzz" black
     = (true, {| rgb := {| R := 170; G := 187; B := 204 |}; M := 221 |}).
Proof.
  destruct (hex_parsers_ignore_the_rest "#AABBCC" " and more" black) as [P _].
  destruct (hex_parsers_ignore_the_rest "#AABBCCDD" "zz" black) as [_ Q].
  split.
  - change "#AABBCC and more"%string with ("#AABBCC" ++ " and more")%string.
    rewrite P by (simpl; lia). reflexivity.
  - change "#AABBCCDDzz"%string with ("#AABBCCDD" ++ "zz")%string.
    rewrite Q by (simpl; lia). reflexivity.
Defined.

(** When [hexstr_to_rgbm] returns true it has assigned both fields: the
    result does not depend on what the struct held before, so the
    uninitialised local of [serialEvent] is never read.  When it fails
    before the main digits are reached the struct is untouched. *)
Theorem hexstr_to_rgbm_assigns_all (hex : string) (out1 out2 : rgbm) :
  (fst (hexstr_to_rgbm hex out1) = true ->
   hexstr_to_rgbm hex out2 = hexstr_to_rgbm hex out1)
  /\ (is_hash (String_at hex 0) = false
      \/ hexstr_to_rgb (String_substring 0 7 hex) = None ->
      hexstr_to_rgbm hex out1 = (false, out1)).
Proof.
  unfold hexstr_to_rgbm. change (Z.to_nat RGB_HEX_STR_LEN) with 7%nat.
  split.
  - destruct (is_hash (String_at hex 0)); simpl; [|discriminate].
    destruct (hexstr_to_rgb (String_substring 0 7 hex)); [|discriminate].
    destruct (hexstr_to_uint32 _); [reflexivity|discriminate].
  - intros [H|H].
    + rewrite H. reflexivity.
    + rewrite H. destruct (is_hash (String_at hex 0)); reflexivity.
Qed.

Lemma hexstr_to_rgbm_assigns_all_witness :
  fst (hexstr_to_rgbm "#01020304" black) = true
  /\ hexstr_to_rgbm "#01020304" {| rgb := {| R := 9; G := 9; B := 9 |}; M := 9 |}
     = (true, {| rgb := {| R := 1; G := 2; B := 3 |}; M := 4 |}).
Proof.
  split; [reflexivity|].
  destruct (hexstr_to_rgbm_assigns_all "#01020304" black
              {| rgb := {| R := 9; G := 9; B := 9 |}; M := 9 |}) as [P _].
  rewrite P; reflexivity.
Defined.
